(** * ShadowPay prover: the CLI prover (prove.js) and the prover service
    (prover-service/index.js), embedded as Rocq functions.

    The JavaScript values that flow through both programs are modelled by an
    inductive type; the Node and snarkjs library calls (file system, JSON
    parsing, Groth16 proving and verifying, the clock) are fields of an
    environment record, so every definition below is executable once an
    environment is given. *)

From Stdlib Require Import String Ascii List ZArith Bool Lia.
From Stdlib Require Import Decimal DecimalString DecimalZ.
From Stdlib Require Import SpecFloat.
Import ListNotations.
Open Scope string_scope.
Set Warnings "-register-all".

(* ===================================================================== *)
(** ** JavaScript values, exceptions and JSON documents *)
(* ===================================================================== *)

Module JS.

(** A JavaScript value. A [Number] is an IEEE-754 binary64 value, a [BigInt]
    an unbounded integer. The properties of an object are listed in the
    order in which [Object.entries] enumerates them. *)
Inductive value : Type :=
| Undefined
| Null
| Bool (b : bool)
| Number (x : spec_float)
| BigInt (n : Z)
| Str (s : string)
| Arr (items : list value)
| Obj (props : list (string * value)).

(** A thrown exception. Every throw site of the two programs creates an
    [Error], and so do the library calls they make; an exception is
    therefore an [Error] instance, given by its [name] and [message]
    properties. *)
Record exn : Type := mkError { name : string; message : string }.

(** The completion of a computation that may throw. *)
Inductive result (A : Type) : Type :=
| Ok (a : A)
| Throw (e : exn).
Arguments Ok {A} a.
Arguments Throw {A} e.

Definition bind {A B : Type} (r : result A) (k : A -> result B) : result B :=
  match r with
  | Ok a => k a
  | Throw e => Throw e
  end.

Definition is_ok {A : Type} (r : result A) : bool :=
  match r with Ok _ => true | Throw _ => false end.

(** ToBoolean. *)
Definition truthy (v : value) : bool :=
  match v with
  | Undefined | Null => false
  | Bool b => b
  | Number (S754_zero _) | Number S754_nan => false
  | Number _ => true
  | BigInt n => negb (n =? 0)%Z
  | Str s => negb (s =? "")
  | Arr _ | Obj _ => true
  end.

(** [BigInt.prototype.toString()] and the text of an integer in a template
    literal: the decimal digits, with a leading minus sign when negative. *)
Definition decimal (n : Z) : string := NilEmpty.string_of_int (Z.to_int n).

(** The inverse reading of a decimal text (what [BigInt(text)] computes). *)
Definition parse_decimal (s : string) : option Z :=
  option_map Z.of_int (NilEmpty.int_of_string s).

(** The Number holding an integer (exact below 2^53). *)
Definition number_of_Z (n : Z) : spec_float := binary_normalize 53 1024 n 0 false.

(** [Error.prototype.toString]. *)
Definition Error_toString (e : exn) : string :=
  if name e =? "" then message e
  else if message e =? "" then name e
  else name e ++ ": " ++ message e.

(** A JSON document, the result of [JSON.stringify]; the text written is the
    rendering of this tree. *)
Inductive json : Type :=
| JNull
| JBool (b : bool)
| JNumber (x : spec_float)
| JString (s : string)
| JArray (items : list json)
| JObject (members : list (string * json)).

(** What [JSON.stringify] writes for a Number: a finite number as it is,
    except that negative zero is written as 0; a number that is not finite
    as null. *)
Definition json_of_number (x : spec_float) : json :=
  match x with
  | S754_zero _ => JNumber (S754_zero false)
  | S754_finite _ _ _ => JNumber x
  | S754_infinity _ | S754_nan => JNull
  end.

Definition BigInt_TypeError : exn :=
  mkError "TypeError" "Do not know how to serialize a BigInt".

(** [JSON.stringify(v)] without replacer: [Ok None] is the JavaScript result
    [undefined]. A BigInt anywhere throws; a non-finite number is written as
    null; an undefined array element is written as null and an undefined
    property is left out. *)
Fixpoint JSON_stringify (v : value) : result (option json) :=
  match v with
  | Undefined => Ok None
  | Null => Ok (Some JNull)
  | Bool b => Ok (Some (JBool b))
  | Number x => Ok (Some (json_of_number x))
  | BigInt _ => Throw BigInt_TypeError
  | Str s => Ok (Some (JString s))
  | Arr items =>
      bind ((fix elements (l : list value) : result (list json) :=
               match l with
               | [] => Ok []
               | x :: l' =>
                   bind (JSON_stringify x) (fun j =>
                   bind (elements l') (fun js =>
                   Ok (match j with Some d => d | None => JNull end :: js)))
               end) items)
           (fun js => Ok (Some (JArray js)))
  | Obj props =>
      bind ((fix members (l : list (string * value)) : result (list (string * json)) :=
               match l with
               | [] => Ok []
               | (k, x) :: l' =>
                   bind (JSON_stringify x) (fun j =>
                   bind (members l') (fun ms =>
                   Ok (match j with Some d => (k, d) :: ms | None => ms end)))
               end) props)
           (fun ms => Ok (Some (JObject ms)))
  end.

(** The two local loops of [JSON_stringify], named for the proofs. *)
Fixpoint stringify_elements (l : list value) : result (list json) :=
  match l with
  | [] => Ok []
  | x :: l' =>
      bind (JSON_stringify x) (fun j =>
      bind (stringify_elements l') (fun js =>
      Ok (match j with Some d => d | None => JNull end :: js)))
  end.

Fixpoint stringify_members (l : list (string * value)) : result (list (string * json)) :=
  match l with
  | [] => Ok []
  | (k, x) :: l' =>
      bind (JSON_stringify x) (fun j =>
      bind (stringify_members l') (fun ms =>
      Ok (match j with Some d => (k, d) :: ms | None => ms end)))
  end.

(** A step into a value: an array index or a property name. *)
Inductive key : Type :=
| Index (i : nat)
| Field (k : string).

(** Property lookup [o[k]] on an object. *)
Fixpoint get_prop {A : Type} (k : string) (l : list (string * A)) : option A :=
  match l with
  | [] => None
  | (k', x) :: l' => if k' =? k then Some x else get_prop k l'
  end.

(** The value reached from [v] along a path. *)
Fixpoint value_at (p : list key) (v : value) : option value :=
  match p with
  | [] => Some v
  | Index i :: p' =>
      match v with
      | Arr items =>
          match nth_error items i with Some x => value_at p' x | None => None end
      | _ => None
      end
  | Field k :: p' =>
      match v with
      | Obj props =>
          match get_prop k props with Some x => value_at p' x | None => None end
      | _ => None
      end
  end.

Fixpoint json_at (p : list key) (d : json) : option json :=
  match p with
  | [] => Some d
  | Index i :: p' =>
      match d with
      | JArray items =>
          match nth_error items i with Some x => json_at p' x | None => None end
      | _ => None
      end
  | Field k :: p' =>
      match d with
      | JObject members =>
          match get_prop k members with Some x => json_at p' x | None => None end
      | _ => None
      end
  end.

(** Whether a value holds a BigInt anywhere. *)
Fixpoint holds_bigint (v : value) : bool :=
  match v with
  | BigInt _ => true
  | Arr items => existsb holds_bigint items
  | Obj props => existsb (fun '(_, x) => holds_bigint x) props
  | _ => false
  end.

End JS.

(* ===================================================================== *)
(** ** prove.js: the command-line prover *)
(* ===================================================================== *)

Module ProveCli.
Import JS.

(** Modelled from the spec: the data that [groth16.fullProve] resolves with
    (snarkjs is not part of this repository). The specification gives the
    proof as an object of curve points and names, the public signals as a
    sequence of field elements, and every numeric value in them as a large
    integer. The data is therefore made of BigInts and of texts (the decimal
    text of a field element, the name of a protocol or of a curve), grouped
    in arrays and objects. *)
Fixpoint snark_data (v : value) : bool :=
  match v with
  | BigInt _ | Str _ => true
  | Arr items => forallb snark_data items
  | Obj props => forallb (fun '(_, x) => snark_data x) props
  | _ => false
  end.

Definition snark : Type := { v : value | snark_data v = true }.

Definition data (d : snark) : value := proj1_sig d.

(** The library calls of prove.js. [fullProve input wasm zkey] is
    [groth16.fullProve]; its result is the pair of the [proof] and
    [publicSignals] properties that [main] destructures. *)
Record Env : Type := {
  readFileSync : string -> result string;
  JSON_parse : string -> result value;
  fullProve : value -> string -> string -> result (snark * snark)
}.

(** What a run leaves behind: the documents written to standard output and
    to standard error, and the status given to [process.exit] when the
    program calls it ([None] when it does not). *)
Record Outcome : Type := {
  stdout : list json;
  stderr : list json;
  exitCode : option Z
}.

Definition usage : exn :=
  mkError "Error" "Usage: node prove.js <zkeyPath> <wasmPath> <inputJsonPath>".

(** [stringifyBigInts]: a bigint becomes its decimal text, arrays and
    objects are rebuilt element by element, anything else is returned as it
    is. *)
Fixpoint stringifyBigInts (o : value) : value :=
  match o with
  | BigInt n => Str (decimal n)
  | Arr items => Arr (map stringifyBigInts items)
  | Obj props => Obj (map (fun '(k, v) => (k, stringifyBigInts v)) props)
  | _ => o
  end.

(** [process.stdout.write(JSON.stringify(o))]: the text to write; [write]
    rejects [undefined] with a TypeError. *)
Definition stdout_text (o : value) : result json :=
  bind (JSON_stringify o) (fun t =>
  match t with
  | Some d => Ok d
  | None => Throw (mkError "TypeError" "The chunk argument must be of type string")
  end).

(** The body of the [try] block of [main]: the document written to standard
    output, or the exception thrown before anything is written. The
    positional arguments are [process.argv.slice(2)]; an argument that is
    absent or empty is falsy. *)
Definition main_try (env : Env) (argv : list string) : result json :=
  match skipn 2 argv with
  | zkeyPath :: wasmPath :: inputPath :: _ =>
      if (zkeyPath =? "") || (wasmPath =? "") || (inputPath =? "") then Throw usage
      else
        bind (readFileSync env inputPath) (fun text =>
        bind (JSON_parse env text) (fun input =>
        bind (fullProve env input wasmPath zkeyPath) (fun '(proof, publicSignals) =>
        stdout_text (Obj [("proof", stringifyBigInts (data proof));
                          ("publicSignals", stringifyBigInts (data publicSignals))]))))
  | _ => Throw usage
  end.

(** [err?.message || String(err)] *)
Definition catch_message (err : exn) : string :=
  if message err =? "" then Error_toString err else message err.

(** [main]: after the write to standard output the function returns
    without calling [process.exit]; the [catch] block writes the error
    object to standard error and calls [process.exit(1)]. *)
Definition main (env : Env) (argv : list string) : Outcome :=
  match main_try env argv with
  | Ok doc => {| stdout := [doc]; stderr := []; exitCode := None |}
  | Throw err =>
      {| stdout := [];
         stderr := [JObject [("error", JString (catch_message err))]];
         exitCode := Some 1%Z |}
  end.

(** The ways a run can fail before the output is written. *)
Definition missing_argument (argv : list string) : Prop :=
  match skipn 2 argv with
  | zkeyPath :: wasmPath :: inputPath :: _ =>
      zkeyPath = "" \/ wasmPath = "" \/ inputPath = ""
  | _ => True
  end.

Definition input_path (argv : list string) : string := nth 4 argv "".
Definition wasm_path (argv : list string) : string := nth 3 argv "".
Definition zkey_path (argv : list string) : string := nth 2 argv "".

Definition unreadable_input (env : Env) (argv : list string) : Prop :=
  exists e, readFileSync env (input_path argv) = Throw e.

Definition invalid_input_json (env : Env) (argv : list string) : Prop :=
  exists text e, readFileSync env (input_path argv) = Ok text /\
                 JSON_parse env text = Throw e.

Definition proof_generation_fails (env : Env) (argv : list string) : Prop :=
  exists text input e,
    readFileSync env (input_path argv) = Ok text /\
    JSON_parse env text = Ok input /\
    fullProve env input (wasm_path argv) (zkey_path argv) = Throw e.

Definition failing (env : Env) (argv : list string) : Prop :=
  missing_argument argv \/ unreadable_input env argv \/
  invalid_input_json env argv \/ proof_generation_fails env argv.

(** Proof generation succeeds with the given proof and public signals. *)
Definition proves (env : Env) (argv : list string) (proof publicSignals : snark) : Prop :=
  ~ missing_argument argv /\
  exists text input,
    readFileSync env (input_path argv) = Ok text /\
    JSON_parse env text = Ok input /\
    fullProve env input (wasm_path argv) (zkey_path argv) = Ok (proof, publicSignals).

(** Whether a value holds a native Number anywhere. *)
Fixpoint holds_number (v : value) : bool :=
  match v with
  | Number _ => true
  | Arr items => existsb holds_number items
  | Obj props => existsb (fun '(_, x) => holds_number x) props
  | _ => false
  end.

(** Whether a document holds a native number anywhere. *)
Fixpoint has_number (d : json) : bool :=
  match d with
  | JNumber _ => true
  | JArray items => existsb has_number items
  | JObject members => existsb (fun '(_, x) => has_number x) members
  | _ => false
  end.

End ProveCli.

(* ===================================================================== *)
(** ** prover-service/index.js: the HTTP prover service *)
(* ===================================================================== *)

Module ProverService.
Import JS.

(** A cache entry: the paths of the witness generator and the proving key. *)
Record Circuit : Type := { wasm : string; zkey : string }.

(** The process environment and the library calls of the service.
    [stack_of e] is the text of [e.stack]; [clock i] is what the i-th call
    of [Date.now()] returns. *)
Record Env : Type := {
  CIRCUIT_DIR : option string;
  NODE_ENV : option string;
  dirname : string;
  path_join : string -> string -> string;
  existsSync : string -> bool;
  readFileSync : string -> result string;
  readdirSync : string -> result (list string);
  JSON_parse : string -> result value;
  fullProve : value -> string -> string -> result (value * value);
  exportVerificationKey : string -> result value;
  groth16_verify : value -> value -> value -> result bool;
  stack_of : exn -> string;
  clock : nat -> Z
}.

(** The observable actions of the service: storage accesses, calls into
    snarkjs and console lines. *)
Inductive event : Type :=
| ExistsSync (p : string)
| ReadFileSync (p : string)
| ReaddirSync (p : string)
| FullProve (input : value) (wasmPath zkeyPath : string)
| ExportVerificationKey (zkeyPath : string)
| Verify (vKey publicSignals proof : value)
| ConsoleLog (line : string)
| ConsoleError (label detail : string)
| ConsoleErrorExn (label : string) (error : exn).

(** The process state: the module-level [circuits] Map (entries in insertion
    order), the number of clock readings so far, and the actions performed. *)
Record State : Type := {
  circuits : list (string * Circuit);
  ticks : nat;
  trace : list event
}.

Definition init : State := {| circuits := []; ticks := 0; trace := [] |}.

(** [Map.prototype.get], [set] and [keys]; [get] is [None] exactly when
    [Map.prototype.has] is false. *)
Definition Map_get (k : string) (m : list (string * Circuit)) : option Circuit :=
  get_prop k m.

Fixpoint Map_set (k : string) (c : Circuit) (m : list (string * Circuit))
  : list (string * Circuit) :=
  match m with
  | [] => [(k, c)]
  | (k', c') :: m' => if k' =? k then (k', c) :: m' else (k', c') :: Map_set k c m'
  end.

Definition Map_keys (m : list (string * Circuit)) : list string := map fst m.

(** Computations of the service: they read and update the state and may
    throw; the state reached when an exception is thrown is kept. *)
Definition M (A : Type) : Type := State -> result A * State.

Definition ret {A : Type} (a : A) : M A := fun s => (Ok a, s).

Definition throw {A : Type} (e : exn) : M A := fun s => (Throw e, s).

Definition lift {A : Type} (r : result A) : M A := fun s => (r, s).

Definition bindM {A B : Type} (m : M A) (k : A -> M B) : M B :=
  fun s =>
    match m s with
    | (Ok a, s') => k a s'
    | (Throw e, s') => (Throw e, s')
    end.

Definition try_catch {A : Type} (m : M A) (handler : exn -> M A) : M A :=
  fun s =>
    match m s with
    | (Ok a, s') => (Ok a, s')
    | (Throw e, s') => handler e s'
    end.

Declare Scope service_scope.
Delimit Scope service_scope with service.
Notation "x <- m ;; k" := (bindM m (fun x => k))
  (at level 61, m at next level, right associativity) : service_scope.
Notation "' p <- m ;; k" := (bindM m (fun p => k))
  (at level 61, p pattern, m at next level, right associativity) : service_scope.
Notation "m ;; k" := (bindM m (fun _ => k))
  (at level 61, right associativity) : service_scope.
Open Scope service_scope.

Definition emit (e : event) : M unit :=
  fun s => (Ok tt, {| circuits := circuits s; ticks := ticks s; trace := trace s ++ [e] |}).

Definition get_circuits : M (list (string * Circuit)) := fun s => (Ok (circuits s), s).

Definition circuits_set (k : string) (c : Circuit) : M unit :=
  fun s => (Ok tt, {| circuits := Map_set k c (circuits s); ticks := ticks s; trace := trace s |}).

Definition Date_now (env : Env) : M Z :=
  fun s => (Ok (clock env (ticks s)),
            {| circuits := circuits s; ticks := S (ticks s); trace := trace s |}).

Definition console_log (line : string) : M unit := emit (ConsoleLog line).

Definition fs_existsSync (env : Env) (p : string) : M bool :=
  emit (ExistsSync p) ;; ret (existsSync env p).

Definition fs_readFileSync (env : Env) (p : string) : M string :=
  emit (ReadFileSync p) ;; lift (readFileSync env p).

Definition fs_readdirSync (env : Env) (p : string) : M (list string) :=
  emit (ReaddirSync p) ;; lift (readdirSync env p).

Definition snarkjs_fullProve (env : Env) (input : value) (w z : string) : M (value * value) :=
  emit (FullProve input w z) ;; lift (fullProve env input w z).

Definition snarkjs_exportVerificationKey (env : Env) (z : string) : M value :=
  emit (ExportVerificationKey z) ;; lift (exportVerificationKey env z).

Definition snarkjs_verify (env : Env) (vKey publicSignals proof : value) : M bool :=
  emit (Verify vKey publicSignals proof) ;; lift (groth16_verify env vKey publicSignals proof).

(** [process.env.CIRCUIT_DIR || path.join(__dirname, 'circuits')] *)
Definition circuitDir (env : Env) : string :=
  match CIRCUIT_DIR env with
  | Some d => if d =? "" then path_join env (dirname env) "circuits" else d
  | None => path_join env (dirname env) "circuits"
  end.

Definition wasmPath (env : Env) (circuitType : string) : string :=
  path_join env (circuitDir env) (circuitType ++ ".wasm").

Definition zkeyPath (env : Env) (circuitType : string) : string :=
  path_join env (circuitDir env) (circuitType ++ "_final.zkey").

(** [loadCircuit]. The first [match] is [circuits.has(circuitType)]
    followed by [circuits.get(circuitType)]. The function has no suspension
    point: a call runs from its first statement to its return or throw
    without interruption. *)
Definition loadCircuit (env : Env) (circuitType : string) : M Circuit :=
  cache <- get_circuits ;;
  match Map_get circuitType cache with
  | Some circuit => ret circuit
  | None =>
      try_catch
        (console_log ("Loading circuit artifacts for " ++ circuitType ++ "...") ;;
         w <- fs_existsSync env (wasmPath env circuitType) ;;
         if negb w
         then throw (mkError "Error" ("WASM file not found: " ++ wasmPath env circuitType))
         else
           z <- fs_existsSync env (zkeyPath env circuitType) ;;
           if negb z
           then throw (mkError "Error" ("ZKey file not found: " ++ zkeyPath env circuitType))
           else
             let circuit := {| wasm := wasmPath env circuitType;
                               zkey := zkeyPath env circuitType |} in
             circuits_set circuitType circuit ;;
             console_log ("Circuit " ++ circuitType ++ " loaded successfully") ;;
             ret circuit)
        (fun error =>
           emit (ConsoleError ("Failed to load circuit " ++ circuitType ++ ":")
                              (message error)) ;;
           throw error)
  end.

(** The entry that a load of [circuitType] inserts. *)
Definition artifact (env : Env) (circuitType : string) : Circuit :=
  {| wasm := wasmPath env circuitType; zkey := zkeyPath env circuitType |}.

(** The error with which a load fails: the first missing file. *)
Definition load_error (env : Env) (circuitType : string) : exn :=
  if existsSync env (wasmPath env circuitType)
  then mkError "Error" ("ZKey file not found: " ++ zkeyPath env circuitType)
  else mkError "Error" ("WASM file not found: " ++ wasmPath env circuitType).

(** The storage accesses of one execution of the load path: the witness
    generator is checked first, the proving key only if the first check
    passes. *)
Definition load_accesses (env : Env) (circuitType : string) : list event :=
  ExistsSync (wasmPath env circuitType)
  :: (if existsSync env (wasmPath env circuitType)
      then [ExistsSync (zkeyPath env circuitType)]
      else []).

(** An HTTP response: status code and JSON body. *)
Record Response : Type := { status : nat; body : json }.

(** [res.status(code).json(o)]: the body is [JSON.stringify(o)], so a value
    that cannot be serialised makes the call throw before anything is sent. *)
Definition res_json (code : nat) (o : value) : M Response :=
  d <- lift (JSON_stringify o) ;;
  ret {| status := code;
         body := match d with Some j => j | None => JNull end |}.

(** The parsed request body: the properties the handlers destructure. An
    absent property is [Undefined]; [circuitType], when present, is a
    string. *)
Record Body : Type := {
  input : value;
  proof : value;
  publicSignals : value;
  circuitType : option string
}.

(** Destructuring with the default [circuitType = 'spending']. *)
Definition circuitType_or_default (req : Body) : string :=
  match circuitType req with
  | Some t => t
  | None => "spending"
  end.

(** [process.env.NODE_ENV === 'development' ? error.stack : undefined] *)
Definition stack_field (env : Env) (error : exn) : value :=
  match NODE_ENV env with
  | Some m => if m =? "development" then Str (stack_of env error) else Undefined
  | None => Undefined
  end.

Definition error_body (env : Env) (error : exn) : value :=
  Obj [("error", Str (message error)); ("stack", stack_field env error)].

Definition metadata (circuitType : string) (duration timestamp : Z) : value :=
  Obj [("circuitType", Str circuitType);
       ("duration", Number (number_of_Z duration));
       ("timestamp", Number (number_of_Z timestamp))].

(** [GET /health] *)
Definition get_health : M Response :=
  cache <- get_circuits ;;
  res_json 200 (Obj [("status", Str "ok");
                     ("service", Str "shadowpay-prover");
                     ("version", Str "1.0.0");
                     ("loadedCircuits", Arr (map Str (Map_keys cache)))]).

(** [POST /prove] *)
Definition post_prove (env : Env) (req : Body) : M Response :=
  try_catch
    (let circuitType := circuitType_or_default req in
     if negb (truthy (input req))
     then res_json 400 (Obj [("error", Str "Missing input parameter")])
     else
       console_log ("Generating proof for circuit: " ++ circuitType) ;;
       startTime <- Date_now env ;;
       circuit <- loadCircuit env circuitType ;;
       ' (proof, publicSignals) <-
           snarkjs_fullProve env (input req) (wasm circuit) (zkey circuit) ;;
       finished <- Date_now env ;;
       let duration := (finished - startTime)%Z in
       console_log ("Proof generated in " ++ decimal duration ++ "ms") ;;
       timestamp <- Date_now env ;;
       res_json 200 (Obj [("proof", proof);
                          ("publicSignals", publicSignals);
                          ("metadata", metadata circuitType duration timestamp)]))
    (fun error =>
       emit (ConsoleErrorExn "Proof generation failed:" error) ;;
       res_json 500 (error_body env error)).

(** [String.prototype.replace] with a string pattern: the first occurrence
    of [pattern] is replaced (the replacements used here hold no dollar
    sign). *)
Fixpoint String_replace (pattern replacement s : string) : string :=
  if prefix pattern s
  then replacement ++ substring (String.length pattern)
                                 (String.length s - String.length pattern) s
  else match s with
       | EmptyString => s
       | String c s' => String c (String_replace pattern replacement s')
       end.

Definition vKeyPath (circuit : Circuit) : string :=
  String_replace "_final.zkey" "_verification_key.json" (zkey circuit).

(** Lines 134-142 of the [/verify] handler: the verification key is read
    from the precomputed file when that file exists, and exported from the
    proving key otherwise. *)
Definition resolve_vKey (env : Env) (circuit : Circuit) : M value :=
  present <- fs_existsSync env (vKeyPath circuit) ;;
  if present
  then text <- fs_readFileSync env (vKeyPath circuit) ;; lift (JSON_parse env text)
  else snarkjs_exportVerificationKey env (zkey circuit).

(** The value that [resolve_vKey] computes. *)
Definition vKey_source (env : Env) (circuit : Circuit) : result value :=
  if existsSync env (vKeyPath circuit)
  then bind (readFileSync env (vKeyPath circuit)) (JSON_parse env)
  else exportVerificationKey env (zkey circuit).

(** [POST /verify] *)
Definition post_verify (env : Env) (req : Body) : M Response :=
  try_catch
    (let circuitType := circuitType_or_default req in
     if negb (truthy (proof req)) || negb (truthy (publicSignals req))
     then res_json 400 (Obj [("error", Str "Missing proof or publicSignals")])
     else
       console_log ("Verifying proof for circuit: " ++ circuitType) ;;
       startTime <- Date_now env ;;
       circuit <- loadCircuit env circuitType ;;
       vKey <- resolve_vKey env circuit ;;
       isValid <- snarkjs_verify env vKey (publicSignals req) (proof req) ;;
       finished <- Date_now env ;;
       let duration := (finished - startTime)%Z in
       console_log ("Proof verified in " ++ decimal duration ++ "ms: "
                    ++ (if isValid : bool then "true" else "false")) ;;
       timestamp <- Date_now env ;;
       res_json 200 (Obj [("valid", Bool isValid);
                          ("metadata", metadata circuitType duration timestamp)]))
    (fun error =>
       emit (ConsoleErrorExn "Proof verification failed:" error) ;;
       res_json 500 (error_body env error)).

(** [String.prototype.endsWith] *)
Definition String_endsWith (s suffix : string) : bool :=
  (String.length suffix <=? String.length s)%nat &&
  (substring (String.length s - String.length suffix) (String.length suffix) s =? suffix).

(** [GET /circuits] *)
Definition get_circuits_route (env : Env) : M Response :=
  try_catch
    (present <- fs_existsSync env (circuitDir env) ;;
     if negb present
     then res_json 200 (Obj [("circuits", Arr [])])
     else
       files <- fs_readdirSync env (circuitDir env) ;;
       let wasmFiles := filter (fun f => String_endsWith f ".wasm") files in
       let availableCircuits := map (String_replace ".wasm" "") wasmFiles in
       cache <- get_circuits ;;
       res_json 200 (Obj [("circuits", Arr (map Str availableCircuits));
                          ("loaded", Arr (map Str (Map_keys cache)));
                          ("circuitDir", Str (circuitDir env))]))
    (fun error => res_json 500 (Obj [("error", Str (message error))])).

(** The requests the service answers. *)
Inductive request : Type :=
| GetHealth
| PostProve (req : Body)
| PostVerify (req : Body)
| GetCircuits.

Definition handle (env : Env) (r : request) : M Response :=
  match r with
  | GetHealth => get_health
  | PostProve req => post_prove env req
  | PostVerify req => post_verify env req
  | GetCircuits => get_circuits_route env
  end.

(** The states the process can be in after starting from [init] and
    answering requests, every one of them against the environment [env]. *)
Inductive reachable (env : Env) : State -> Prop :=
| reachable_init : reachable env init
| reachable_step (s : State) (r : request) :
    reachable env s -> reachable env (snd (handle env r s)).

(** The states that follow [s], whatever requests arrive and whatever the
    environment (the files on disk included) is at each of them. *)
Inductive follows (s : State) : State -> Prop :=
| follows_refl : follows s s
| follows_step (env : Env) (r : request) (s' : State) :
    follows s s' -> follows s (snd (handle env r s')).

(** A computation keeps a property of the state. *)
Definition keeps {A : Type} (I : State -> Prop) (m : M A) : Prop :=
  forall s, I s -> I (snd (m s)).

(** A property of the state that looks at the cache only. *)
Definition cache_only (I : State -> Prop) : Prop :=
  forall s s', circuits s = circuits s' -> I s -> I s'.

(** Every entry of [s] is still there, unchanged, in [s']. *)
Definition extends (s s' : State) : Prop :=
  forall k c, Map_get k (circuits s) = Some c -> Map_get k (circuits s') = Some c.

(** Every entry of the cache is the artifact of its key and both its files
    are on the disk of [env]. *)
Definition consistent (env : Env) (s : State) : Prop :=
  forall k c, Map_get k (circuits s) = Some c ->
              c = artifact env k /\
              existsSync env (wasmPath env k) = true /\
              existsSync env (zkeyPath env k) = true.

(** What a [/verify] response says: status, the [valid] member and the
    [error] member. *)
Definition verdict (r : result Response) : option (nat * option json * option json) :=
  match r with
  | Ok resp =>
      match body resp with
      | JObject members => Some (status resp, get_prop "valid" members, get_prop "error" members)
      | _ => Some (status resp, None, None)
      end
  | Throw _ => None
  end.

(** Storage accesses among the actions of a trace. *)
Definition is_storage_access (e : event) : bool :=
  match e with
  | ExistsSync _ | ReadFileSync _ | ReaddirSync _ => true
  | _ => false
  end.

Definition storage_accesses (t : list event) : list event := filter is_storage_access t.

(** [n] calls of [loadCircuit] for the same circuit type, one after the
    other (a call cannot be interrupted, so calls issued together run in
    some order); the results are listed in call order. *)
Fixpoint load_many (env : Env) (circuitType : string) (n : nat) : State -> list (result Circuit) * State :=
  fun s =>
    match n with
    | O => ([], s)
    | S n' =>
        let (r, s1) := loadCircuit env circuitType s in
        let (rs, s2) := load_many env circuitType n' s1 in
        (r :: rs, s2)
    end.

(** The number of loads executed for a circuit type: each execution of the
    load path announces itself on the console before its first storage
    access. *)
Definition loads_executed (circuitType : string) (t : list event) : nat :=
  List.length
    (filter (fun e => match e with
                      | ConsoleLog line =>
                          line =? "Loading circuit artifacts for " ++ circuitType ++ "..."
                      | _ => false
                      end) t).

(** Every value that a computation returns has a property. *)
Definition returns {A : Type} (P : A -> Prop) (m : M A) : Prop :=
  forall s a s', m s = (Ok a, s') -> P a.

(** The number of exports of a verification key among the actions of a
    trace. *)
Definition key_exports (t : list event) : nat :=
  List.length (filter (fun e => match e with
                                | ExportVerificationKey _ => true
                                | _ => false
                                end) t).

(** The calls of [groth16.verify] among the actions of a trace. *)
Definition verify_calls (t : list event) : list event :=
  filter (fun e => match e with Verify _ _ _ => true | _ => false end) t.

End ProverService.

(* ===================================================================== *)
(** ** Concrete environments used to run the two programs *)
(* ===================================================================== *)

Module Scenario.
Import JS.

Definition ENOENT (p : string) : exn :=
  mkError "Error" ("ENOENT: no such file or directory, open '" ++ p ++ "'").

Definition SyntaxError : exn := mkError "SyntaxError" "Unexpected token in JSON".

(** A disk: file names with their contents. *)
Definition read (disk : list (string * string)) (p : string) : result string :=
  match get_prop p disk with
  | Some text => Ok text
  | None => Throw (ENOENT p)
  end.

Definition present (disk : list (string * string)) (p : string) : bool :=
  match get_prop p disk with Some _ => true | None => false end.

(** A parser that knows two texts. *)
Definition parse (text : string) : result value :=
  if text =? "{}" then Ok (Obj [])
  else if text =? "{vk}" then Ok (Obj [("protocol", Str "groth16")])
  else Throw SyntaxError.

(** A proof whose coordinates are bigints beyond 64 bits. *)
Definition bigint_proof : value :=
  Obj [("pi_a", Arr [BigInt (2 ^ 70); BigInt (-3)]); ("protocol", Str "groth16")].

Definition bigint_signals : value := Arr [BigInt 18446744073709551617].

(** The same proof and signals as results of the prover, and a proof made
    of decimal texts, as current snarkjs returns it. *)
Definition field_proof : ProveCli.snark := exist _ bigint_proof eq_refl.

Definition field_signals : ProveCli.snark := exist _ bigint_signals eq_refl.

Definition text_proof : ProveCli.snark :=
  exist _ (Obj [("pi_a", Arr [Str "1180591620717411303424"; Str "7"]);
                ("protocol", Str "groth16")]) eq_refl.

Definition cli (prf sigs : ProveCli.snark) : ProveCli.Env :=
  {| ProveCli.readFileSync := read [("input.json", "{}")];
     ProveCli.JSON_parse := parse;
     ProveCli.fullProve := fun _ _ _ => Ok (prf, sigs) |}.

Definition argv : list string :=
  ["node"; "prove.js"; "spending_final.zkey"; "spending.wasm"; "input.json"].

(** A service environment over a disk; the prover accepts every proof whose
    public signals are the string "1". *)
Definition service (disk : list (string * string)) : ProverService.Env :=
  {| ProverService.CIRCUIT_DIR := Some "/circuits";
     ProverService.NODE_ENV := None;
     ProverService.dirname := "/srv";
     ProverService.path_join := fun d f => d ++ "/" ++ f;
     ProverService.existsSync := present disk;
     ProverService.readFileSync := read disk;
     ProverService.readdirSync := fun _ => Ok (map fst disk);
     ProverService.JSON_parse := parse;
     ProverService.fullProve := fun _ _ _ => Ok (Str "proof", Arr [Str "1"]);
     ProverService.exportVerificationKey := fun _ => Ok (Obj [("protocol", Str "groth16")]);
     ProverService.groth16_verify :=
       fun _ sigs _ => Ok (match sigs with Arr [Str "1"] => true | _ => false end);
     ProverService.stack_of := fun _ => "";
     ProverService.clock := fun i => (1700000000000 + Z.of_nat i)%Z |}.

(** Disks: both artifacts present; none present; artifacts together with a
    verification-key file that is not JSON. *)
Definition full_disk : list (string * string) :=
  [("/circuits/spending.wasm", "wasm"); ("/circuits/spending_final.zkey", "zkey")].

Definition empty_disk : list (string * string) := [].

Definition bad_vkey_disk : list (string * string) :=
  [("/circuits/spending.wasm", "wasm");
   ("/circuits/spending_final.zkey", "zkey");
   ("/circuits/spending_verification_key.json", "not json")].

Definition prove_request : ProverService.Body :=
  {| ProverService.input := Obj [("amount", Str "1")];
     ProverService.proof := Undefined;
     ProverService.publicSignals := Undefined;
     ProverService.circuitType := None |}.

Definition verify_request : ProverService.Body :=
  {| ProverService.input := Undefined;
     ProverService.proof := Str "proof";
     ProverService.publicSignals := Arr [Str "1"];
     ProverService.circuitType := Some "spending" |}.

Definition empty_request : ProverService.Body :=
  {| ProverService.input := Undefined;
     ProverService.proof := Undefined;
     ProverService.publicSignals := Undefined;
     ProverService.circuitType := None |}.

(** A service whose prover returns bigints, and one whose prover fails. *)
Definition bigint_service (disk : list (string * string)) : ProverService.Env :=
  {| ProverService.CIRCUIT_DIR := ProverService.CIRCUIT_DIR (service disk);
     ProverService.NODE_ENV := ProverService.NODE_ENV (service disk);
     ProverService.dirname := ProverService.dirname (service disk);
     ProverService.path_join := ProverService.path_join (service disk);
     ProverService.existsSync := ProverService.existsSync (service disk);
     ProverService.readFileSync := ProverService.readFileSync (service disk);
     ProverService.readdirSync := ProverService.readdirSync (service disk);
     ProverService.JSON_parse := ProverService.JSON_parse (service disk);
     ProverService.fullProve := fun _ _ _ => Ok (bigint_proof, bigint_signals);
     ProverService.exportVerificationKey :=
       ProverService.exportVerificationKey (service disk);
     ProverService.groth16_verify := ProverService.groth16_verify (service disk);
     ProverService.stack_of := ProverService.stack_of (service disk);
     ProverService.clock := ProverService.clock (service disk) |}.

Definition failing_service (disk : list (string * string)) : ProverService.Env :=
  {| ProverService.CIRCUIT_DIR := ProverService.CIRCUIT_DIR (service disk);
     ProverService.NODE_ENV := ProverService.NODE_ENV (service disk);
     ProverService.dirname := ProverService.dirname (service disk);
     ProverService.path_join := ProverService.path_join (service disk);
     ProverService.existsSync := ProverService.existsSync (service disk);
     ProverService.readFileSync := ProverService.readFileSync (service disk);
     ProverService.readdirSync := ProverService.readdirSync (service disk);
     ProverService.JSON_parse := ProverService.JSON_parse (service disk);
     ProverService.fullProve :=
       fun _ _ _ => Throw (mkError "Error" "Assert Failed. Error in template Spending");
     ProverService.exportVerificationKey :=
       ProverService.exportVerificationKey (service disk);
     ProverService.groth16_verify := ProverService.groth16_verify (service disk);
     ProverService.stack_of := ProverService.stack_of (service disk);
     ProverService.clock := ProverService.clock (service disk) |}.

(** A disk whose circuit directory exists and holds one complete circuit. *)
Definition listed_disk : list (string * string) :=
  [("/circuits", "");
   ("spending.wasm", "wasm");
   ("spending_final.zkey", "zkey");
   ("README.md", "notes")].

(** A disk with the proving key but without the witness generator. *)
Definition no_wasm_disk : list (string * string) :=
  [("/circuits/spending_final.zkey", "zkey");
   ("/circuits/spending_verification_key.json", "{vk}")].

End Scenario.

(* ===================================================================== *)
(** ** Facts about values and JSON.stringify *)
(* ===================================================================== *)

Module JSFacts.
Import JS.

(** Induction on values that reaches the elements of arrays and the
    property values of objects. *)
Section ValueInduction.
Variable P : value -> Prop.
Hypothesis P_undefined : P Undefined.
Hypothesis P_null : P Null.
Hypothesis P_bool : forall b, P (Bool b).
Hypothesis P_number : forall x, P (Number x).
Hypothesis P_bigint : forall n, P (BigInt n).
Hypothesis P_str : forall s, P (Str s).
Hypothesis P_arr : forall items, Forall P items -> P (Arr items).
Hypothesis P_obj : forall props, Forall (fun kv => P (snd kv)) props -> P (Obj props).

Fixpoint value_ind_deep (v : value) : P v :=
  match v with
  | Undefined => P_undefined
  | Null => P_null
  | Bool b => P_bool b
  | Number x => P_number x
  | BigInt n => P_bigint n
  | Str s => P_str s
  | Arr items =>
      P_arr items ((fix all (l : list value) : Forall P l :=
                match l with
                | [] => Forall_nil P
                | x :: l' => Forall_cons x (value_ind_deep x) (all l')
                end) items)
  | Obj props =>
      P_obj props ((fix all (l : list (string * value)) : Forall (fun kv => P (snd kv)) l :=
                match l with
                | [] => Forall_nil _
                | kv :: l' => Forall_cons kv (value_ind_deep (snd kv)) (all l')
                end) props)
  end.
End ValueInduction.

Lemma JSON_stringify_Arr (items : list value) :
  JSON_stringify (Arr items) =
  bind (stringify_elements items) (fun js => Ok (Some (JArray js))).
Proof.
  reflexivity.
Qed.

Lemma JSON_stringify_Obj (props : list (string * value)) :
  JSON_stringify (Obj props) =
  bind (stringify_members props) (fun ms => Ok (Some (JObject ms))).
Proof.
  reflexivity.
Qed.

(** Only [undefined] is serialised to [undefined]. *)
Lemma JSON_stringify_None (v : value) :
  JSON_stringify v = Ok None -> v = Undefined.
Proof.
  destruct v as [| |b|x|n|s|items|props]; try (simpl; congruence).
  - rewrite JSON_stringify_Arr. destruct (stringify_elements items); simpl; congruence.
  - rewrite JSON_stringify_Obj. destruct (stringify_members props); simpl; congruence.
Qed.

Lemma stringify_elements_nth (l : list value) :
  forall js i x,
    stringify_elements l = Ok js -> nth_error l i = Some x ->
    exists o, JSON_stringify x = Ok o /\
              nth_error js i = Some (match o with Some d => d | None => JNull end).
Proof.
  induction l as [|y l IH]; intros js i x H Hn.
  - destruct i; discriminate.
  - simpl in H. destruct (JSON_stringify y) as [o|e] eqn:Hy; simpl in H; [|discriminate].
    destruct (stringify_elements l) as [js'|e] eqn:Hl; simpl in H; [|discriminate].
    injection H as <-. destruct i as [|i]; simpl in Hn.
    + injection Hn as <-. exists o. split; [assumption|reflexivity].
    + simpl. eapply IH; [reflexivity|eassumption].
Qed.

Lemma stringify_members_get (l : list (string * value)) :
  forall ms k x,
    stringify_members l = Ok ms -> get_prop k l = Some x ->
    exists o, JSON_stringify x = Ok o /\
              forall d, o = Some d -> get_prop k ms = Some d.
Proof.
  induction l as [|[k' y] l IH]; intros ms k x H Hg.
  - discriminate.
  - simpl in H. destruct (JSON_stringify y) as [o|e] eqn:Hy; simpl in H; [|discriminate].
    destruct (stringify_members l) as [ms'|e] eqn:Hl; simpl in H; [|discriminate].
    injection H as <-. simpl in Hg. destruct (k' =? k) eqn:Hk.
    + injection Hg as <-. exists o. split; [assumption|].
      intros d ->. simpl. now rewrite Hk.
    + destruct (IH ms' k x eq_refl Hg) as (o' & Ho' & Hget).
      exists o'. split; [assumption|]. intros d Hd.
      destruct o as [d0|]; [simpl; rewrite Hk|]; now apply Hget.
Qed.

(** A defined value reached along a path of [v] is found, serialised, along
    the same path of the document of [v]. *)
Lemma JSON_stringify_at (p : list key) :
  forall v j x,
    JSON_stringify v = Ok (Some j) ->
    value_at p v = Some x -> x <> Undefined ->
    exists jx, JSON_stringify x = Ok (Some jx) /\ json_at p j = Some jx.
Proof.
  induction p as [|[i|k] p IH]; intros v j x Hv Hat Hx.
  - simpl in Hat. injection Hat as <-. exists j. split; [assumption|reflexivity].
  - simpl in Hat. destruct v; try discriminate.
    destruct (nth_error items i) as [y|] eqn:Hn; [|discriminate].
    rewrite JSON_stringify_Arr in Hv.
    destruct (stringify_elements items) as [js|e] eqn:Hl; simpl in Hv; [|discriminate].
    injection Hv as <-.
    destruct (stringify_elements_nth _ _ _ _ Hl Hn) as (o & Ho & Hjs).
    destruct o as [d|].
    + destruct (IH y d x Ho Hat Hx) as (jx & Hjx & Hp).
      exists jx. split; [assumption|]. simpl. now rewrite Hjs.
    + apply JSON_stringify_None in Ho. subst y.
      destruct p as [|[?|?] ?]; simpl in Hat; congruence.
  - simpl in Hat. destruct v; try discriminate.
    destruct (get_prop k props) as [y|] eqn:Hg; [|discriminate].
    rewrite JSON_stringify_Obj in Hv.
    destruct (stringify_members props) as [ms|e] eqn:Hl; simpl in Hv; [|discriminate].
    injection Hv as <-.
    destruct (stringify_members_get _ _ _ _ Hl Hg) as (o & Ho & Hms).
    destruct o as [d|].
    + destruct (IH y d x Ho Hat Hx) as (jx & Hjx & Hp).
      exists jx. split; [assumption|]. simpl. now rewrite (Hms d eq_refl).
    + apply JSON_stringify_None in Ho. subst y.
      destruct p as [|[?|?] ?]; simpl in Hat; congruence.
Qed.

(** Decimal text is a lossless representation of an integer of any size. *)
Lemma parse_decimal_decimal (n : Z) : parse_decimal (decimal n) = Some n.
Proof.
  unfold parse_decimal, decimal. rewrite NilEmpty.isi. simpl.
  now rewrite DecimalZ.of_to.
Qed.

End JSFacts.

(* ===================================================================== *)
(** ** prove.js: what a run writes *)
(* ===================================================================== *)

Module ProveCliProofs.
Import JS JSFacts ProveCli.

Lemma get_prop_map {A B : Type} (f : A -> B) (k : string) (l : list (string * A)) :
  get_prop k (map (fun '(k', v) => (k', f v)) l) = option_map f (get_prop k l).
Proof.
  induction l as [|[k' v] l IH]; simpl; [reflexivity|].
  destruct (k' =? k); [reflexivity|assumption].
Qed.

(** [stringifyBigInts] keeps the shape of a value: what is found along a
    path of the result is the image of what was there. *)
Lemma stringifyBigInts_at (p : list key) :
  forall v x, value_at p v = Some x ->
              value_at p (stringifyBigInts v) = Some (stringifyBigInts x).
Proof.
  induction p as [|[i|k] p IH]; intros v x H; simpl in H.
  - injection H as <-. reflexivity.
  - destruct v; try discriminate. simpl.
    rewrite nth_error_map. destruct (nth_error items i); [simpl; auto|discriminate].
  - destruct v; try discriminate. simpl.
    rewrite get_prop_map. destruct (get_prop k props); [simpl; auto|discriminate].
Qed.

Lemma stringifyBigInts_defined (v : value) :
  v <> Undefined -> stringifyBigInts v <> Undefined.
Proof. destruct v; simpl; congruence. Qed.

(** After [stringifyBigInts] no BigInt is left, so [JSON.stringify] does not
    throw. *)
Lemma stringifyBigInts_serialises (v : value) :
  exists o, JSON_stringify (stringifyBigInts v) = Ok o.
Proof.
  induction v as [| |b|x|n|s|items IH|props IH] using value_ind_deep;
    try (simpl; eexists; reflexivity).
  - simpl stringifyBigInts. rewrite JSON_stringify_Arr.
    assert (exists js, stringify_elements (map stringifyBigInts items) = Ok js) as [js ->].
    { induction IH as [|x l [o Hx] _ [js Hl]]; simpl; [eexists; reflexivity|].
      rewrite Hx, Hl. simpl. eexists; reflexivity. }
    simpl. eexists; reflexivity.
  - simpl stringifyBigInts. rewrite JSON_stringify_Obj.
    assert (exists ms, stringify_members
                         (map (fun '(k, v) => (k, stringifyBigInts v)) props) = Ok ms)
      as [ms ->].
    { induction IH as [|[k x] l [o Hx] _ [ms Hl]]; simpl; [eexists; reflexivity|].
      simpl in Hx. rewrite Hx, Hl. simpl. eexists; reflexivity. }
    simpl. eexists; reflexivity.
Qed.

(** A value without native Numbers gives a document without numbers. *)
Lemma stringifyBigInts_no_number (v : value) :
  forall j, holds_number v = false ->
            JSON_stringify (stringifyBigInts v) = Ok (Some j) ->
            has_number j = false.
Proof.
  induction v as [| |b|x|n|s|items IH|props IH] using value_ind_deep;
    intros j Hv Hj; simpl in Hv; try discriminate;
    try (simpl in Hj; injection Hj as <-; reflexivity).
  - simpl stringifyBigInts in Hj. rewrite JSON_stringify_Arr in Hj.
    destruct (stringify_elements (map stringifyBigInts items)) as [js|e] eqn:Hl;
      simpl in Hj; [|discriminate].
    injection Hj as <-. simpl. revert js Hl Hv.
    induction IH as [|x l Hx _ IHl]; intros js Hl Hv; simpl in Hl.
    + injection Hl as <-. reflexivity.
    + simpl in Hv. apply orb_false_iff in Hv as [Hvx Hvl].
      destruct (JSON_stringify (stringifyBigInts x)) as [o|e] eqn:Ho; simpl in Hl; [|discriminate].
      destruct (stringify_elements (map stringifyBigInts l)) as [js'|e] eqn:Hl';
        simpl in Hl; [|discriminate].
      injection Hl as <-. simpl. rewrite (IHl js' eq_refl Hvl), orb_false_r.
      destruct o as [d|]; [now apply Hx|reflexivity].
  - simpl stringifyBigInts in Hj. rewrite JSON_stringify_Obj in Hj.
    destruct (stringify_members (map (fun '(k, v) => (k, stringifyBigInts v)) props))
      as [ms|e] eqn:Hl; simpl in Hj; [|discriminate].
    injection Hj as <-. simpl. revert ms Hl Hv.
    induction IH as [|[k x] l Hx _ IHl]; intros ms Hl Hv; simpl in Hl.
    + injection Hl as <-. reflexivity.
    + simpl in Hv, Hx. apply orb_false_iff in Hv as [Hvx Hvl].
      destruct (JSON_stringify (stringifyBigInts x)) as [o|e] eqn:Ho; simpl in Hl; [|discriminate].
      destruct (stringify_members (map (fun '(k, v) => (k, stringifyBigInts v)) l))
        as [ms'|e] eqn:Hl'; simpl in Hl; [|discriminate].
      injection Hl as <-. specialize (IHl ms' eq_refl Hvl).
      destruct o as [d|]; [|assumption].
      simpl. rewrite IHl, orb_false_r. now apply Hx.
Qed.

(** The positional arguments, when none is missing. *)
Lemma arguments_present (argv : list string) :
  ~ missing_argument argv ->
  exists rest,
    skipn 2 argv = zkey_path argv :: wasm_path argv :: input_path argv :: rest /\
    zkey_path argv <> "" /\ wasm_path argv <> "" /\ input_path argv <> "".
Proof.
  unfold missing_argument, zkey_path, wasm_path, input_path.
  destruct argv as [|a0 [|a1 [|z [|w [|i rest]]]]]; simpl; try tauto.
  intros H. exists rest. repeat split; try reflexivity; intros ->; tauto.
Qed.

Lemma eqb_empty_false (s : string) : s <> "" -> (s =? "") = false.
Proof. intros H. now apply String.eqb_neq. Qed.

(** Data of the prover holds no native Number and is never undefined. *)
Lemma snark_data_no_number (v : value) : snark_data v = true -> holds_number v = false.
Proof.
  induction v as [| |b|x|n|s|items IH|props IH] using value_ind_deep;
    intros H; simpl in H; try discriminate; try reflexivity; simpl.
  - induction IH as [|x l Hx _ IHl]; simpl; [reflexivity|].
    simpl in H. apply andb_true_iff in H as [H1 H2]. now rewrite Hx, IHl.
  - induction IH as [|[k x] l Hx _ IHl]; simpl; [reflexivity|].
    simpl in H, Hx. apply andb_true_iff in H as [H1 H2]. now rewrite Hx, IHl.
Qed.

Lemma data_defined (d : snark) : data d <> Undefined.
Proof. destruct d as [v H]. simpl. intros ->. discriminate H. Qed.

(** The document written by a run in which proof generation succeeds. *)
Lemma main_try_proves (env : Env) (argv : list string) (prf sigs : snark) :
  proves env argv prf sigs ->
  main_try env argv =
  stdout_text (Obj [("proof", stringifyBigInts (data prf));
                    ("publicSignals", stringifyBigInts (data sigs))]).
Proof.
  intros (Hargs & text & input & Hread & Hparse & Hprove).
  destruct (arguments_present _ Hargs) as (rest & Hskip & Hz & Hw & Hi).
  unfold main_try. rewrite Hskip.
  rewrite !eqb_empty_false by assumption. simpl orb. cbv iota.
  rewrite Hread. simpl. rewrite Hparse. simpl. rewrite Hprove. reflexivity.
Qed.

(** The exception that a failing run throws: the usage error when an
    argument is missing, and otherwise the exception of the first of the
    three steps (read, parse, prove) that fails. *)
Lemma main_try_first_failure (env : Env) (argv : list string) :
  failing env argv ->
  exists e,
    main_try env argv = Throw e /\
    ((missing_argument argv /\ e = usage) \/
     (~ missing_argument argv /\ readFileSync env (input_path argv) = Throw e) \/
     (~ missing_argument argv /\
      exists text, readFileSync env (input_path argv) = Ok text /\
                   JSON_parse env text = Throw e) \/
     (~ missing_argument argv /\
      exists text input,
        readFileSync env (input_path argv) = Ok text /\
        JSON_parse env text = Ok input /\
        fullProve env input (wasm_path argv) (zkey_path argv) = Throw e)).
Proof.
  unfold main_try, failing, missing_argument, unreadable_input, invalid_input_json,
    proof_generation_fails, zkey_path, wasm_path, input_path.
  destruct argv as [|a0 [|a1 [|z [|w [|i rest]]]]]; simpl;
    try (intros _; exists usage; split; [reflexivity|left; split; [exact I|reflexivity]]).
  destruct (z =? "") eqn:Ez;
    [apply String.eqb_eq in Ez; intros _; exists usage; split; [reflexivity|left; tauto]|].
  destruct (w =? "") eqn:Ew;
    [apply String.eqb_eq in Ew; intros _; exists usage; split; [reflexivity|left; tauto]|].
  destruct (i =? "") eqn:Ei;
    [apply String.eqb_eq in Ei; intros _; exists usage; split; [reflexivity|left; tauto]|].
  apply String.eqb_neq in Ez, Ew, Ei. simpl.
  assert (Hpresent : ~ (z = "" \/ w = "" \/ i = "")) by tauto.
  intros [H|[(e & H)|[(text & e & Hr & Hp)|(text & input & e & Hr & Hp & Hf)]]].
  - tauto.
  - exists e. rewrite H. split; [reflexivity|]. right. left. now split.
  - exists e. rewrite Hr. simpl. rewrite Hp. split; [reflexivity|].
    right. right. left. split; [exact Hpresent|]. now exists text.
  - exists e. rewrite Hr. simpl. rewrite Hp. simpl. rewrite Hf. split; [reflexivity|].
    right. right. right. split; [exact Hpresent|]. now exists text, input.
Qed.

Lemma main_try_failing (env : Env) (argv : list string) :
  failing env argv -> exists e, main_try env argv = Throw e.
Proof.
  intros H. destruct (main_try_first_failure _ _ H) as (e & He & _). now exists e.
Qed.

(** The listed failures are the only ones: after [stringifyBigInts] the
    serialisation of the output cannot throw. *)
Lemma main_try_Throw_failing (env : Env) (argv : list string) (e : exn) :
  main_try env argv = Throw e -> failing env argv.
Proof.
  unfold main_try, failing, missing_argument, unreadable_input, invalid_input_json,
    proof_generation_fails, zkey_path, wasm_path, input_path.
  destruct argv as [|a0 [|a1 [|z [|w [|i rest]]]]]; simpl; try (intros _; now left).
  destruct (z =? "") eqn:Ez; [apply String.eqb_eq in Ez; intros _; left; tauto|].
  destruct (w =? "") eqn:Ew; [apply String.eqb_eq in Ew; intros _; left; tauto|].
  destruct (i =? "") eqn:Ei; [apply String.eqb_eq in Ei; intros _; left; tauto|].
  simpl.
  destruct (readFileSync env i) as [text|e1] eqn:Hr; simpl;
    [|intros _; right; left; now exists e1].
  destruct (JSON_parse env text) as [input|e2] eqn:Hp; simpl;
    [|intros _; right; right; left; now exists text, e2].
  destruct (fullProve env input w z) as [[prf sigs]|e3] eqn:Hf; simpl;
    [|intros _; right; right; right; now exists text, input, e3].
  unfold stdout_text. rewrite JSON_stringify_Obj. cbn [stringify_members].
  destruct (stringifyBigInts_serialises (data prf)) as [op ->].
  destruct (stringifyBigInts_serialises (data sigs)) as [os ->].
  destruct op, os; discriminate.
Qed.

(** The text that the [catch] block writes: the message of the exception,
    or its name when the message is empty. *)
Lemma catch_message_text (e : exn) :
  catch_message e = if message e =? "" then name e else message e.
Proof.
  unfold catch_message, Error_toString.
  destruct (message e =? "") eqn:Hm; [|reflexivity].
  apply String.eqb_eq in Hm. destruct (name e =? "") eqn:Hn; [|reflexivity].
  apply String.eqb_eq in Hn. congruence.
Qed.

(** C1: when proof generation succeeds, the run writes exactly one JSON
    document to standard output, with exactly the members proof and
    publicSignals, and nothing to standard error. The document holds no
    native number: every BigInt of the proof and of the public signals,
    whatever its size, appears at the same place as its decimal text, from
    which the integer is read back, and every text of the prover (a decimal
    text already) appears unchanged. *)
Theorem C1_stdout_document (env : Env) (argv : list string) (prf sigs : snark) :
  proves env argv prf sigs ->
  exists dp ds,
    main env argv =
      {| stdout := [JObject [("proof", dp); ("publicSignals", ds)]];
         stderr := [];
         exitCode := None |} /\
    has_number (JObject [("proof", dp); ("publicSignals", ds)]) = false /\
    (forall p n, value_at p (data prf) = Some (BigInt n) ->
                 json_at p dp = Some (JString (decimal n)) /\
                 parse_decimal (decimal n) = Some n) /\
    (forall p n, value_at p (data sigs) = Some (BigInt n) ->
                 json_at p ds = Some (JString (decimal n)) /\
                 parse_decimal (decimal n) = Some n) /\
    (forall p s, value_at p (data prf) = Some (Str s) ->
                 json_at p dp = Some (JString s)) /\
    (forall p s, value_at p (data sigs) = Some (Str s) ->
                 json_at p ds = Some (JString s)).
Proof.
  intros Hproves.
  destruct (stringifyBigInts_serialises (data prf)) as [op Hp].
  destruct (stringifyBigInts_serialises (data sigs)) as [os Hs].
  destruct op as [dp|];
    [|apply JSON_stringify_None in Hp; apply stringifyBigInts_defined in Hp;
      [contradiction|apply data_defined]].
  destruct os as [ds|];
    [|apply JSON_stringify_None in Hs; apply stringifyBigInts_defined in Hs;
      [contradiction|apply data_defined]].
  assert (Hpath : forall v d, JSON_stringify (stringifyBigInts v) = Ok (Some d) ->
            (forall p n, value_at p v = Some (BigInt n) ->
                         json_at p d = Some (JString (decimal n))) /\
            (forall p s, value_at p v = Some (Str s) -> json_at p d = Some (JString s))).
  { intros v d Hd. split; intros p x H; apply stringifyBigInts_at in H;
      destruct (JSON_stringify_at _ _ _ _ Hd H) as (jx & Hjx & Hat);
      try discriminate; simpl in Hjx; now injection Hjx as <-. }
  destruct (Hpath _ _ Hp) as [Hpb Hpt]. destruct (Hpath _ _ Hs) as [Hsb Hst].
  exists dp, ds. split; [|split; [|split; [|split; [|split]]]].
  - unfold main. rewrite (main_try_proves _ _ _ _ Hproves).
    unfold stdout_text. rewrite JSON_stringify_Obj. simpl. rewrite Hp, Hs. reflexivity.
  - simpl.
    rewrite (stringifyBigInts_no_number _ _
               (snark_data_no_number _ (proj2_sig prf)) Hp).
    rewrite (stringifyBigInts_no_number _ _
               (snark_data_no_number _ (proj2_sig sigs)) Hs).
    reflexivity.
  - intros p n H. split; [now apply Hpb|apply parse_decimal_decimal].
  - intros p n H. split; [now apply Hsb|apply parse_decimal_decimal].
  - exact Hpt.
  - exact Hst.
Qed.

(** A run whose proof is made of decimal texts and whose public signal is a
    BigInt beyond 64 bits: the text is written as it is and 2^64 + 1 as its
    decimal text. *)
Lemma C1_stdout_document_witness :
  proves (Scenario.cli Scenario.text_proof Scenario.field_signals) Scenario.argv
         Scenario.text_proof Scenario.field_signals /\
  exists dp ds,
    main (Scenario.cli Scenario.text_proof Scenario.field_signals) Scenario.argv =
      {| stdout := [JObject [("proof", dp); ("publicSignals", ds)]];
         stderr := [];
         exitCode := None |} /\
    json_at [Field "pi_a"; Index 0] dp = Some (JString "1180591620717411303424") /\
    json_at [Index 0] ds = Some (JString "18446744073709551617").
Proof.
  assert (Hproves : proves (Scenario.cli Scenario.text_proof Scenario.field_signals)
                           Scenario.argv Scenario.text_proof Scenario.field_signals).
  { split.
    - simpl. intros [H|[H|H]]; discriminate.
    - exists "{}", (Obj []). repeat split; reflexivity. }
  split; [exact Hproves|].
  destruct (C1_stdout_document _ _ _ _ Hproves)
    as (dp & ds & Hmain & _ & _ & Hbig & Htext & _).
  exists dp, ds. split; [exact Hmain|]. split.
  - apply (Htext [Field "pi_a"; Index 0]). reflexivity.
  - apply (Hbig [Index 0] 18446744073709551617%Z). reflexivity.
Defined.

(** C2: every failing run (a missing argument, an input file that cannot be
    read, input that is not JSON, or a failure of proof generation) writes
    one object with the single member error to standard error, exits with
    status 1, and writes nothing to standard output. The member holds the
    message of the failure: the usage line when an argument is missing,
    and otherwise the message (or, when that is empty, the name) of the
    exception of the first step that fails. *)
Theorem C2_failure_outcome (env : Env) (argv : list string) :
  failing env argv ->
  exists e,
    ((missing_argument argv /\
      e = mkError "Error" "Usage: node prove.js <zkeyPath> <wasmPath> <inputJsonPath>") \/
     (~ missing_argument argv /\ readFileSync env (input_path argv) = Throw e) \/
     (~ missing_argument argv /\
      exists text, readFileSync env (input_path argv) = Ok text /\
                   JSON_parse env text = Throw e) \/
     (~ missing_argument argv /\
      exists text input,
        readFileSync env (input_path argv) = Ok text /\
        JSON_parse env text = Ok input /\
        fullProve env input (wasm_path argv) (zkey_path argv) = Throw e)) /\
    main env argv =
      {| stdout := [];
         stderr := [JObject [("error",
                      JString (if message e =? "" then name e else message e))]];
         exitCode := Some 1%Z |}.
Proof.
  intros H. destruct (main_try_first_failure _ _ H) as (e & He & Hcause).
  exists e. split; [exact Hcause|].
  unfold main. now rewrite He, catch_message_text.
Qed.

(** A run whose input file does not exist. *)
Lemma C2_failure_outcome_witness :
  failing (Scenario.cli Scenario.field_proof Scenario.field_signals)
          ["node"; "prove.js"; "spending_final.zkey"; "spending.wasm"; "missing.json"] /\
  main (Scenario.cli Scenario.field_proof Scenario.field_signals)
       ["node"; "prove.js"; "spending_final.zkey"; "spending.wasm"; "missing.json"] =
    {| stdout := [];
       stderr := [JObject [("error",
                    JString "ENOENT: no such file or directory, open 'missing.json'")]];
       exitCode := Some 1%Z |}.
Proof.
  assert (Hfail : failing (Scenario.cli Scenario.field_proof Scenario.field_signals)
            ["node"; "prove.js"; "spending_final.zkey"; "spending.wasm"; "missing.json"]).
  { right. left. eexists. reflexivity. }
  split; [exact Hfail|].
  destruct (C2_failure_outcome _ _ Hfail) as (e & Hcause & Hmain).
  rewrite Hmain.
  destruct Hcause as [[Hm _]|[[_ Hr]|[[_ (text & Hr & _)]|[_ (text & input & Hr & _)]]]].
  - exfalso. destruct Hm as [Hm|[Hm|Hm]]; discriminate Hm.
  - injection Hr as <-. reflexivity.
  - discriminate Hr.
  - discriminate Hr.
Defined.

End ProveCliProofs.

(* ===================================================================== *)
(** ** prover-service/index.js: the circuit cache *)
(* ===================================================================== *)

Module CircuitCacheProofs.
Import JS JSFacts ProverService.

(** *** The four ways through [loadCircuit] *)

Lemma loadCircuit_cached (env : Env) (circuitType : string) (s : State) (c : Circuit) :
  Map_get circuitType (circuits s) = Some c ->
  loadCircuit env circuitType s = (Ok c, s).
Proof.
  intros H. unfold loadCircuit, bindM, get_circuits. now rewrite H.
Qed.

Lemma loadCircuit_loads (env : Env) (circuitType : string) (s : State) :
  Map_get circuitType (circuits s) = None ->
  existsSync env (wasmPath env circuitType) = true ->
  existsSync env (zkeyPath env circuitType) = true ->
  loadCircuit env circuitType s =
  (Ok (artifact env circuitType),
   {| circuits := Map_set circuitType (artifact env circuitType) (circuits s);
      ticks := ticks s;
      trace := trace s ++
               [ConsoleLog ("Loading circuit artifacts for " ++ circuitType ++ "...");
                ExistsSync (wasmPath env circuitType);
                ExistsSync (zkeyPath env circuitType);
                ConsoleLog ("Circuit " ++ circuitType ++ " loaded successfully")] |}).
Proof.
  intros H Hw Hz. unfold loadCircuit, bindM at 1, get_circuits. rewrite H.
  unfold try_catch, bindM, console_log, fs_existsSync, emit, circuits_set, bindM, ret.
  simpl. rewrite Hw. simpl. rewrite Hz. simpl.
  rewrite <- !app_assoc. reflexivity.
Qed.

Lemma loadCircuit_fails (env : Env) (circuitType : string) (s : State) :
  Map_get circuitType (circuits s) = None ->
  existsSync env (wasmPath env circuitType) && existsSync env (zkeyPath env circuitType)
    = false ->
  loadCircuit env circuitType s =
  (Throw (load_error env circuitType),
   {| circuits := circuits s;
      ticks := ticks s;
      trace := trace s ++
               ConsoleLog ("Loading circuit artifacts for " ++ circuitType ++ "...")
               :: load_accesses env circuitType ++
               [ConsoleError ("Failed to load circuit " ++ circuitType ++ ":")
                             (message (load_error env circuitType))] |}).
Proof.
  intros H Hdisk. unfold loadCircuit, bindM at 1, get_circuits. rewrite H.
  unfold try_catch, bindM, console_log, fs_existsSync, emit, circuits_set, bindM, ret,
    throw, load_error, load_accesses.
  simpl. destruct (existsSync env (wasmPath env circuitType)); simpl.
  - simpl in Hdisk. rewrite Hdisk. simpl. rewrite <- !app_assoc. reflexivity.
  - rewrite <- !app_assoc. reflexivity.
Qed.

(** The result of a call, from the cache and the disk. *)
Lemma loadCircuit_result (env : Env) (circuitType : string) (s : State) :
  fst (loadCircuit env circuitType s) =
  match Map_get circuitType (circuits s) with
  | Some c => Ok c
  | None =>
      if existsSync env (wasmPath env circuitType) && existsSync env (zkeyPath env circuitType)
      then Ok (artifact env circuitType)
      else Throw (load_error env circuitType)
  end.
Proof.
  destruct (Map_get circuitType (circuits s)) as [c|] eqn:H.
  - now rewrite (loadCircuit_cached env _ _ _ H).
  - destruct (existsSync env (wasmPath env circuitType) &&
              existsSync env (zkeyPath env circuitType)) eqn:Hd.
    + apply andb_true_iff in Hd as [Hw Hz]. now rewrite (loadCircuit_loads _ _ _ H Hw Hz).
    + now rewrite (loadCircuit_fails _ _ _ H Hd).
Qed.

(** *** The Map *)

Lemma Map_get_set (k k' : string) (c : Circuit) (m : list (string * Circuit)) :
  Map_get k' (Map_set k c m) = if k =? k' then Some c else Map_get k' m.
Proof.
  unfold Map_get. induction m as [|[k0 c0] m IH]; simpl.
  - reflexivity.
  - destruct (k0 =? k) eqn:E0; simpl.
    + apply String.eqb_eq in E0. subst k0. now destruct (k =? k').
    + destruct (k0 =? k') eqn:E1; [|assumption].
      apply String.eqb_eq in E1. subst k0. now rewrite String.eqb_sym, E0.
Qed.

Lemma Map_keys_get (k : string) (m : list (string * Circuit)) :
  In k (Map_keys m) <-> exists c, Map_get k m = Some c.
Proof.
  unfold Map_keys, Map_get. induction m as [|[k0 c0] m IH]; simpl.
  - split; [tauto|]. intros [c H]. discriminate.
  - destruct (k0 =? k) eqn:E.
    + apply String.eqb_eq in E. split; [eauto|auto].
    + apply String.eqb_neq in E. rewrite <- IH. tauto.
Qed.

(** *** What a call of [loadCircuit] leaves in the cache *)

Lemma loadCircuit_Ok_entry (env : Env) (circuitType : string) (s s' : State) (c : Circuit) :
  loadCircuit env circuitType s = (Ok c, s') ->
  Map_get circuitType (circuits s') = Some c.
Proof.
  intros H. destruct (Map_get circuitType (circuits s)) as [c0|] eqn:Hget.
  - rewrite (loadCircuit_cached env _ _ _ Hget) in H. congruence.
  - destruct (existsSync env (wasmPath env circuitType) &&
              existsSync env (zkeyPath env circuitType)) eqn:Hd.
    + apply andb_true_iff in Hd as [Hw Hz].
      rewrite (loadCircuit_loads _ _ _ Hget Hw Hz) in H.
      injection H as <- <-. simpl. now rewrite Map_get_set, String.eqb_refl.
    + rewrite (loadCircuit_fails _ _ _ Hget Hd) in H. congruence.
Qed.

Lemma loadCircuit_Throw_state (env : Env) (circuitType : string) (s s' : State) (e : exn) :
  loadCircuit env circuitType s = (Throw e, s') ->
  Map_get circuitType (circuits s) = None /\
  existsSync env (wasmPath env circuitType) && existsSync env (zkeyPath env circuitType)
    = false /\
  e = load_error env circuitType /\
  circuits s' = circuits s /\ ticks s' = ticks s.
Proof.
  intros H. destruct (Map_get circuitType (circuits s)) as [c0|] eqn:Hget.
  - rewrite (loadCircuit_cached env _ _ _ Hget) in H. congruence.
  - destruct (existsSync env (wasmPath env circuitType) &&
              existsSync env (zkeyPath env circuitType)) eqn:Hd.
    + apply andb_true_iff in Hd as [Hw Hz].
      rewrite (loadCircuit_loads _ _ _ Hget Hw Hz) in H. congruence.
    + rewrite (loadCircuit_fails _ _ _ Hget Hd) in H. injection H as <- <-. auto.
Qed.

Lemma loadCircuit_extends (env : Env) (circuitType : string) (s : State) :
  extends s (snd (loadCircuit env circuitType s)).
Proof.
  intros k c Hk. destruct (Map_get circuitType (circuits s)) as [c0|] eqn:Hget.
  - now rewrite (loadCircuit_cached env _ _ _ Hget).
  - destruct (existsSync env (wasmPath env circuitType) &&
              existsSync env (zkeyPath env circuitType)) eqn:Hd.
    + apply andb_true_iff in Hd as [Hw Hz].
      rewrite (loadCircuit_loads _ _ _ Hget Hw Hz). simpl. rewrite Map_get_set.
      destruct (circuitType =? k) eqn:E; [|assumption].
      apply String.eqb_eq in E. congruence.
    + rewrite (loadCircuit_fails _ _ _ Hget Hd). assumption.
Qed.

Lemma loadCircuit_consistent (env : Env) (circuitType : string) :
  keeps (consistent env) (loadCircuit env circuitType).
Proof.
  intros s Hs. destruct (Map_get circuitType (circuits s)) as [c0|] eqn:Hget.
  - now rewrite (loadCircuit_cached env _ _ _ Hget).
  - destruct (existsSync env (wasmPath env circuitType) &&
              existsSync env (zkeyPath env circuitType)) eqn:Hd.
    + apply andb_true_iff in Hd as [Hw Hz].
      rewrite (loadCircuit_loads _ _ _ Hget Hw Hz). simpl.
      intros k c. simpl. rewrite Map_get_set.
      destruct (circuitType =? k) eqn:E; [|apply Hs].
      apply String.eqb_eq in E. subst k. intros [= <-]. auto.
    + rewrite (loadCircuit_fails _ _ _ Hget Hd). exact Hs.
Qed.

End CircuitCacheProofs.

(* ===================================================================== *)
(** ** prover-service/index.js: the handlers *)
(* ===================================================================== *)

Module ServiceProofs.
Import JS JSFacts ProverService CircuitCacheProofs.

#[local] Arguments String.append : simpl never.

(** *** Properties of the state kept by the computations of the service *)

Section Keeps.
Variable I : State -> Prop.

Lemma keeps_ret {A : Type} (a : A) : keeps I (ret a).
Proof. intros s Hs. exact Hs. Qed.

Lemma keeps_throw {A : Type} (e : exn) : keeps I (@throw A e).
Proof. intros s Hs. exact Hs. Qed.

Lemma keeps_lift {A : Type} (r : result A) : keeps I (lift r).
Proof. intros s Hs. exact Hs. Qed.

Lemma keeps_get_circuits : keeps I get_circuits.
Proof. intros s Hs. exact Hs. Qed.

Lemma keeps_bindM {A B : Type} (m : M A) (k : A -> M B) :
  keeps I m -> (forall a, keeps I (k a)) -> keeps I (bindM m k).
Proof.
  intros Hm Hk s Hs. unfold bindM. specialize (Hm s Hs).
  destruct (m s) as [[a|e] s']; simpl in Hm; [now apply Hk|exact Hm].
Qed.

Lemma keeps_try_catch {A : Type} (m : M A) (h : exn -> M A) :
  keeps I m -> (forall e, keeps I (h e)) -> keeps I (try_catch m h).
Proof.
  intros Hm Hh s Hs. unfold try_catch. specialize (Hm s Hs).
  destruct (m s) as [[a|e] s']; simpl in Hm; [exact Hm|now apply Hh].
Qed.

Hypothesis I_cache_only : cache_only I.

Lemma keeps_emit (e : event) : keeps I (emit e).
Proof. intros s Hs. apply (I_cache_only s); [reflexivity|exact Hs]. Qed.

Lemma keeps_Date_now (env : Env) : keeps I (Date_now env).
Proof. intros s Hs. apply (I_cache_only s); [reflexivity|exact Hs]. Qed.
End Keeps.

Ltac keeps_step :=
  match goal with
  | |- keeps _ (bindM _ _) => apply keeps_bindM; [|intros ?]
  | |- keeps _ (try_catch _ _) => apply keeps_try_catch; [|intros ?]
  | |- keeps _ (ret _) => apply keeps_ret
  | |- keeps _ (throw _) => apply keeps_throw
  | |- keeps _ (lift _) => apply keeps_lift
  | |- keeps _ get_circuits => apply keeps_get_circuits
  | |- keeps _ (emit _) => apply keeps_emit; assumption
  | |- keeps _ (Date_now _) => apply keeps_Date_now; assumption
  | |- keeps _ (loadCircuit _ _) => solve [auto]
  | |- keeps _ (if ?b then _ else _) => destruct b
  | |- keeps _ (let (_, _) := ?p in _) => destruct p
  end.

(** A property of the cache kept by [loadCircuit] is kept by every
    handler: the handlers reach the cache through [loadCircuit] only. *)
Lemma handle_keeps (I : State -> Prop) (env : Env) (r : request) :
  cache_only I ->
  (forall circuitType, keeps I (loadCircuit env circuitType)) ->
  keeps I (handle env r).
Proof.
  intros Hc Hl.
  destruct r as [|req|req|]; simpl;
    unfold get_health, post_prove, post_verify, get_circuits_route, resolve_vKey,
      res_json, console_log, fs_existsSync, fs_readFileSync, fs_readdirSync,
      snarkjs_fullProve, snarkjs_exportVerificationKey, snarkjs_verify;
    repeat keeps_step.
Qed.

Lemma extends_refl (s : State) : extends s s.
Proof. intros k c H. exact H. Qed.

Lemma extends_trans (s1 s2 s3 : State) : extends s1 s2 -> extends s2 s3 -> extends s1 s3.
Proof. intros H12 H23 k c H. auto. Qed.

(** No handler removes or replaces an entry of the cache. *)
Lemma handle_extends (env : Env) (r : request) (s : State) :
  extends s (snd (handle env r s)).
Proof.
  apply (handle_keeps (extends s) env r).
  - intros s1 s2 E H k c Hk. rewrite <- E. now apply H.
  - intros circuitType s1 H. eapply extends_trans; [exact H|apply loadCircuit_extends].
  - apply extends_refl.
Qed.

Lemma follows_extends (s s' : State) : follows s s' -> extends s s'.
Proof.
  induction 1 as [|env r s' _ IH]; [apply extends_refl|].
  eapply extends_trans; [exact IH|apply handle_extends].
Qed.

(** Under a fixed environment every cached circuit has its files on disk. *)
Lemma reachable_consistent (env : Env) (s : State) : reachable env s -> consistent env s.
Proof.
  induction 1 as [|s r _ IH].
  - intros k c H. discriminate.
  - apply handle_keeps; [| |exact IH].
    + intros s1 s2 E H k c Hk. rewrite <- E in Hk. now apply H.
    + apply loadCircuit_consistent.
Qed.

(** *** GET /health *)

Lemma stringify_elements_Str (l : list string) :
  stringify_elements (map Str l) = Ok (map JString l).
Proof. induction l as [|x l IH]; simpl; [reflexivity|]. now rewrite IH. Qed.

Lemma get_health_response (s : State) :
  get_health s =
  (Ok {| status := 200;
         body := JObject [("status", JString "ok");
                          ("service", JString "shadowpay-prover");
                          ("version", JString "1.0.0");
                          ("loadedCircuits", JArray (map JString (Map_keys (circuits s))))] |},
   s).
Proof.
  unfold get_health, bindM, get_circuits, res_json, bindM, lift, ret.
  rewrite JSON_stringify_Obj.
  cbn [stringify_members]. rewrite JSON_stringify_Arr, stringify_elements_Str.
  reflexivity.
Qed.

(** *** The circuit cache *)

(** C3: [loadCircuit] is idempotent. After a successful load of a circuit
    type, however many requests the service answers afterwards and whatever
    happens to the files, a call for the same circuit type returns the same
    entry and leaves the state as it was: the trace gains no action, so
    storage is not accessed. *)
Theorem C3_loadCircuit_idempotent
  (env : Env) (circuitType : string) (s s1 : State) (c : Circuit) :
  loadCircuit env circuitType s = (Ok c, s1) ->
  forall s2, follows s1 s2 ->
  forall env', loadCircuit env' circuitType s2 = (Ok c, s2) /\
               storage_accesses (trace (snd (loadCircuit env' circuitType s2))) =
               storage_accesses (trace s2).
Proof.
  intros Hload s2 Hfollows env'.
  assert (Hentry : Map_get circuitType (circuits s2) = Some c).
  { apply (follows_extends _ _ Hfollows). eapply loadCircuit_Ok_entry. exact Hload. }
  rewrite (loadCircuit_cached env' _ _ _ Hentry). split; reflexivity.
Qed.

(** A circuit loaded from a full disk is returned from the cache even when
    the disk is empty afterwards. *)
Lemma C3_loadCircuit_idempotent_witness :
  loadCircuit (Scenario.service Scenario.full_disk) "spending" init =
    (Ok (artifact (Scenario.service Scenario.full_disk) "spending"),
     snd (loadCircuit (Scenario.service Scenario.full_disk) "spending" init)) /\
  loadCircuit (Scenario.service Scenario.empty_disk) "spending"
              (snd (loadCircuit (Scenario.service Scenario.full_disk) "spending" init)) =
    (Ok (artifact (Scenario.service Scenario.full_disk) "spending"),
     snd (loadCircuit (Scenario.service Scenario.full_disk) "spending" init)).
Proof.
  assert (Hload : loadCircuit (Scenario.service Scenario.full_disk) "spending" init =
                  (Ok (artifact (Scenario.service Scenario.full_disk) "spending"),
                   snd (loadCircuit (Scenario.service Scenario.full_disk) "spending" init)))
    by reflexivity.
  split; [exact Hload|].
  exact (proj1 (C3_loadCircuit_idempotent _ _ _ _ _ Hload _ (follows_refl _)
                  (Scenario.service Scenario.empty_disk))).
Defined.

(** C4: for a circuit type that is not cached, [loadCircuit] throws exactly
    when the witness generator [circuitType.wasm] or the proving key
    [circuitType_final.zkey] is missing from the circuit directory, and the
    error names the first missing file; when both are there it returns the
    entry holding the two paths. *)
Theorem C4_load_fails_iff_artifact_missing (env : Env) (circuitType : string) (s : State) :
  Map_get circuitType (circuits s) = None ->
  ((exists e, fst (loadCircuit env circuitType s) = Throw e) <->
   existsSync env (path_join env (circuitDir env) (circuitType ++ ".wasm")) = false \/
   existsSync env (path_join env (circuitDir env) (circuitType ++ "_final.zkey")) = false) /\
  (existsSync env (path_join env (circuitDir env) (circuitType ++ ".wasm")) = true ->
   existsSync env (path_join env (circuitDir env) (circuitType ++ "_final.zkey")) = true ->
   fst (loadCircuit env circuitType s) =
   Ok {| wasm := path_join env (circuitDir env) (circuitType ++ ".wasm");
         zkey := path_join env (circuitDir env) (circuitType ++ "_final.zkey") |}) /\
  (forall e, fst (loadCircuit env circuitType s) = Throw e ->
             e = mkError "Error" ("WASM file not found: " ++ wasmPath env circuitType) \/
             e = mkError "Error" ("ZKey file not found: " ++ zkeyPath env circuitType)).
Proof.
  intros Hget. rewrite loadCircuit_result, Hget.
  fold (wasmPath env circuitType) (zkeyPath env circuitType). unfold load_error.
  destruct (existsSync env (wasmPath env circuitType));
    destruct (existsSync env (zkeyPath env circuitType)); simpl;
    (split; [split; [intros [e H]; (discriminate || auto) | intros [H|H]; (discriminate || eauto)]
            | split; [intros; (discriminate || reflexivity) | intros e [= <-]; auto]]).
Qed.

(** On an empty disk the load fails on the witness generator. *)
Lemma C4_load_fails_iff_artifact_missing_witness :
  Map_get "spending" (circuits init) = None /\
  fst (loadCircuit (Scenario.service Scenario.empty_disk) "spending" init) =
  Throw (mkError "Error" "WASM file not found: /circuits/spending.wasm").
Proof.
  split; [reflexivity|].
  destruct (C4_load_fails_iff_artifact_missing
              (Scenario.service Scenario.empty_disk) "spending" init eq_refl)
    as (_ & _ & Herr).
  destruct (Herr _ eq_refl) as [H|H]; [reflexivity|discriminate H].
Defined.

(** *** Several calls for the same circuit type *)

Lemma loads_executed_app (circuitType : string) (t t' : list event) :
  loads_executed circuitType (t ++ t') =
  loads_executed circuitType t + loads_executed circuitType t'.
Proof. unfold loads_executed. now rewrite filter_app, length_app. Qed.

Lemma storage_accesses_app (t t' : list event) :
  storage_accesses (t ++ t') = (storage_accesses t ++ storage_accesses t')%list.
Proof. apply filter_app. Qed.

Lemma loaded_line_is_not_loading (circuitType : string) :
  ("Circuit " ++ circuitType ++ " loaded successfully" =?
   "Loading circuit artifacts for " ++ circuitType ++ "...") = false.
Proof. reflexivity. Qed.

Lemma load_many_cached (env : Env) (circuitType : string) (c : Circuit) (n : nat) :
  forall s, Map_get circuitType (circuits s) = Some c ->
            load_many env circuitType n s = (repeat (Ok c) n, s).
Proof.
  induction n as [|n IH]; intros s H; simpl; [reflexivity|].
  now rewrite (loadCircuit_cached env _ _ _ H), (IH s H).
Qed.

Lemma storage_accesses_load (env : Env) (circuitType : string) (line label detail : string) :
  storage_accesses (ConsoleLog line :: load_accesses env circuitType ++
                    [ConsoleError label detail]) =
  load_accesses env circuitType.
Proof.
  unfold load_accesses. now destruct (existsSync env (wasmPath env circuitType)).
Qed.

Lemma loads_executed_load (env : Env) (circuitType : string) (label detail : string) :
  loads_executed circuitType
    (ConsoleLog ("Loading circuit artifacts for " ++ circuitType ++ "...")
     :: load_accesses env circuitType ++ [ConsoleError label detail]) = 1.
Proof.
  unfold loads_executed, load_accesses. cbn [filter]. rewrite String.eqb_refl.
  now destruct (existsSync env (wasmPath env circuitType)).
Qed.

Lemma load_many_absent (env : Env) (circuitType : string) (n : nat) :
  existsSync env (wasmPath env circuitType) && existsSync env (zkeyPath env circuitType)
    = false ->
  forall s, Map_get circuitType (circuits s) = None ->
    fst (load_many env circuitType n s) = repeat (Throw (load_error env circuitType)) n /\
    circuits (snd (load_many env circuitType n s)) = circuits s /\
    loads_executed circuitType (trace (snd (load_many env circuitType n s))) =
      loads_executed circuitType (trace s) + n /\
    storage_accesses (trace (snd (load_many env circuitType n s))) =
      (storage_accesses (trace s) ++ concat (repeat (load_accesses env circuitType) n))%list.
Proof.
  intros Hdisk. induction n as [|n IH]; intros s Hget; cbn [load_many].
  - cbn [fst snd repeat concat]. rewrite app_nil_r. repeat split. lia.
  - rewrite (loadCircuit_fails _ _ _ Hget Hdisk).
    match goal with |- context [load_many _ _ _ ?s1] => set (s1' := s1) end.
    destruct (IH s1' Hget) as (Hr & Hc & Hn & Ha).
    destruct (load_many env circuitType n s1') as [rs s2]. cbn [fst snd] in *.
    split; [now rewrite Hr|]. split; [exact Hc|]. split.
    + rewrite Hn. unfold s1'. cbn [trace].
      rewrite loads_executed_app, loads_executed_load. lia.
    + rewrite Ha. unfold s1'. cbn [trace repeat concat].
      now rewrite storage_accesses_app, storage_accesses_load, <- app_assoc.
Qed.

(** C9, as the specification states it, fails: when the artifact files are
    missing, two calls for the same circuit type that is not cached each
    execute the load, so storage is accessed by both (with one load the
    storage accesses of two calls would be those of one call); a failed
    load is not shared between the callers. *)
Lemma C9_failed_loads_are_repeated :
  ~ (forall (env : Env) (circuitType : string) (n : nat) (s : State),
       Map_get circuitType (circuits s) = None -> 1 <= n ->
       loads_executed circuitType (trace (snd (load_many env circuitType n s))) =
         loads_executed circuitType (trace s) + 1 /\
       storage_accesses (trace (snd (load_many env circuitType n s))) =
         storage_accesses (trace (snd (load_many env circuitType 1 s)))).
Proof.
  intros claim.
  destruct (claim (Scenario.service Scenario.empty_disk) "spending" 2 init eq_refl
                  (le_S _ _ (le_n _))) as [Hloads _].
  vm_compute in Hloads. discriminate Hloads.
Qed.

(** C9 (amended): [loadCircuit] has no suspension point, so calls issued
    together for a circuit type that is not cached run one after the other.
    When both artifact files are present exactly one of the calls executes
    the load (two existence checks in all), every caller receives the same
    entry, and that entry is then in the cache. When a file is missing every
    call executes the load again and checks storage again, every caller
    receives an error with the same message, and the cache is left as it
    was. After any number of the
    calls the cache holds for that circuit type either nothing or the
    complete entry. *)
Theorem C9_loads_issued_together (env : Env) (circuitType : string) (n : nat) (s : State) :
  Map_get circuitType (circuits s) = None -> 1 <= n ->
  (existsSync env (wasmPath env circuitType) && existsSync env (zkeyPath env circuitType)
     = true ->
   fst (load_many env circuitType n s) = repeat (Ok (artifact env circuitType)) n /\
   loads_executed circuitType (trace (snd (load_many env circuitType n s))) =
     loads_executed circuitType (trace s) + 1 /\
   storage_accesses (trace (snd (load_many env circuitType n s))) =
     (storage_accesses (trace s) ++
      [ExistsSync (wasmPath env circuitType); ExistsSync (zkeyPath env circuitType)])%list /\
   Map_get circuitType (circuits (snd (load_many env circuitType n s))) =
     Some (artifact env circuitType)) /\
  (existsSync env (wasmPath env circuitType) && existsSync env (zkeyPath env circuitType)
     = false ->
   fst (load_many env circuitType n s) = repeat (Throw (load_error env circuitType)) n /\
   loads_executed circuitType (trace (snd (load_many env circuitType n s))) =
     loads_executed circuitType (trace s) + n /\
   storage_accesses (trace (snd (load_many env circuitType n s))) =
     (storage_accesses (trace s) ++ concat (repeat (load_accesses env circuitType) n))%list /\
   circuits (snd (load_many env circuitType n s)) = circuits s) /\
  (forall k, k <= n ->
     Map_get circuitType (circuits (snd (load_many env circuitType k s))) = None \/
     Map_get circuitType (circuits (snd (load_many env circuitType k s))) =
       Some (artifact env circuitType)).
Proof.
  intros Hget Hn.
  assert (Hpresent :
    existsSync env (wasmPath env circuitType) && existsSync env (zkeyPath env circuitType)
      = true ->
    forall k, 1 <= k ->
      fst (load_many env circuitType k s) = repeat (Ok (artifact env circuitType)) k /\
      loads_executed circuitType (trace (snd (load_many env circuitType k s))) =
        loads_executed circuitType (trace s) + 1 /\
      storage_accesses (trace (snd (load_many env circuitType k s))) =
        (storage_accesses (trace s) ++
         [ExistsSync (wasmPath env circuitType); ExistsSync (zkeyPath env circuitType)])%list /\
      Map_get circuitType (circuits (snd (load_many env circuitType k s))) =
        Some (artifact env circuitType)).
  { intros Hdisk k Hk. destruct k as [|k]; [lia|].
    apply andb_true_iff in Hdisk as [Hw Hz]. simpl.
    rewrite (loadCircuit_loads _ _ _ Hget Hw Hz).
    match goal with |- context [load_many _ _ _ ?s1] => set (s1' := s1) end.
    assert (Hentry : Map_get circuitType (circuits s1') = Some (artifact env circuitType)).
    { unfold s1'. simpl. now rewrite Map_get_set, String.eqb_refl. }
    rewrite (load_many_cached env _ _ k s1' Hentry). simpl.
    split; [reflexivity|]. split; [|split; [|exact Hentry]].
    - rewrite loads_executed_app. f_equal.
      unfold loads_executed. cbn [filter].
      now rewrite String.eqb_refl, loaded_line_is_not_loading.
    - now rewrite storage_accesses_app. }
  split; [|split].
  - intros Hdisk. now apply Hpresent.
  - intros Hdisk.
    destruct (load_many_absent env circuitType n Hdisk s Hget) as (Hr & Hc & Ht & Ha).
    auto.
  - intros k Hk.
    destruct (existsSync env (wasmPath env circuitType) &&
              existsSync env (zkeyPath env circuitType)) eqn:Hdisk.
    + destruct k as [|k]; [left; exact Hget|].
      right. apply (Hpresent eq_refl (S k)). lia.
    + left. destruct (load_many_absent env circuitType k Hdisk s Hget) as (_ & Hc & _ & _).
      now rewrite Hc.
Qed.

(** Three calls against a full disk: one load, three equal results. *)
Lemma C9_loads_issued_together_witness :
  fst (load_many (Scenario.service Scenario.full_disk) "spending" 3 init) =
    repeat (Ok (artifact (Scenario.service Scenario.full_disk) "spending")) 3 /\
  loads_executed "spending"
    (trace (snd (load_many (Scenario.service Scenario.full_disk) "spending" 3 init))) = 1.
Proof.
  destruct (C9_loads_issued_together (Scenario.service Scenario.full_disk) "spending" 3 init
              eq_refl (le_S _ _ (le_S _ _ (le_n _)))) as (Hpresent & _ & _).
  destruct (Hpresent eq_refl) as (Hr & Hl & _ & _).
  split; [exact Hr|exact Hl].
Defined.

(** C10: a failed load leaves the cache as it was. The circuit type is not
    inserted, the answer of GET /health is the same as before, and a later
    call for the same circuit type executes the load again: it checks
    storage and succeeds or fails according to the files found then. Under a
    fixed environment, every circuit type that GET /health lists has both
    its artifact files on disk. *)
Theorem C10_failed_load_leaves_cache
  (env : Env) (circuitType : string) (s s' : State) (e : exn) :
  loadCircuit env circuitType s = (Throw e, s') ->
  circuits s' = circuits s /\
  ~ In circuitType (Map_keys (circuits s')) /\
  fst (get_health s') = fst (get_health s) /\
  (forall env2,
     fst (loadCircuit env2 circuitType s') =
       (if existsSync env2 (wasmPath env2 circuitType) &&
           existsSync env2 (zkeyPath env2 circuitType)
        then Ok (artifact env2 circuitType)
        else Throw (load_error env2 circuitType)) /\
     exists rest,
       trace (snd (loadCircuit env2 circuitType s')) =
       (trace s' ++
        ConsoleLog ("Loading circuit artifacts for " ++ circuitType ++ "...")
        :: ExistsSync (wasmPath env2 circuitType) :: rest)%list) /\
  (forall s0, reachable env s0 ->
     exists keys,
       fst (get_health s0) =
         Ok {| status := 200;
               body := JObject [("status", JString "ok");
                                ("service", JString "shadowpay-prover");
                                ("version", JString "1.0.0");
                                ("loadedCircuits", JArray (map JString keys))] |} /\
       forall k, In k keys ->
                 existsSync env (wasmPath env k) = true /\
                 existsSync env (zkeyPath env k) = true).
Proof.
  intros Hload.
  destruct (loadCircuit_Throw_state _ _ _ _ _ Hload) as (Hget & _ & _ & Hc & _).
  assert (Hget' : Map_get circuitType (circuits s') = None) by now rewrite Hc.
  split; [exact Hc|]. split; [|split; [|split]].
  - rewrite Map_keys_get. intros [c H]. congruence.
  - now rewrite !get_health_response, Hc.
  - intros env2. split.
    + now rewrite loadCircuit_result, Hget'.
    + destruct (existsSync env2 (wasmPath env2 circuitType) &&
                existsSync env2 (zkeyPath env2 circuitType)) eqn:Hd.
      * apply andb_true_iff in Hd as [Hw Hz].
        rewrite (loadCircuit_loads _ _ _ Hget' Hw Hz). eexists. reflexivity.
      * rewrite (loadCircuit_fails _ _ _ Hget' Hd). eexists. reflexivity.
  - intros s0 Hs0. exists (Map_keys (circuits s0)). split.
    + now rewrite get_health_response.
    + intros k Hk. apply Map_keys_get in Hk as [c Hk].
      now apply (reachable_consistent _ _ Hs0) in Hk.
Qed.

(** A load that fails on an empty disk, followed by a load that succeeds on
    a full one. *)
Lemma C10_failed_load_leaves_cache_witness :
  loadCircuit (Scenario.service Scenario.empty_disk) "spending" init =
    (Throw (load_error (Scenario.service Scenario.empty_disk) "spending"),
     snd (loadCircuit (Scenario.service Scenario.empty_disk) "spending" init)) /\
  circuits (snd (loadCircuit (Scenario.service Scenario.empty_disk) "spending" init)) = [] /\
  fst (loadCircuit (Scenario.service Scenario.full_disk) "spending"
         (snd (loadCircuit (Scenario.service Scenario.empty_disk) "spending" init))) =
    Ok (artifact (Scenario.service Scenario.full_disk) "spending").
Proof.
  assert (Hload : loadCircuit (Scenario.service Scenario.empty_disk) "spending" init =
    (Throw (load_error (Scenario.service Scenario.empty_disk) "spending"),
     snd (loadCircuit (Scenario.service Scenario.empty_disk) "spending" init)))
    by reflexivity.
  split; [exact Hload|].
  destruct (C10_failed_load_leaves_cache _ _ _ _ _ Hload) as (Hc & _ & _ & Hagain & _).
  split; [exact Hc|].
  exact (proj1 (Hagain (Scenario.service Scenario.full_disk))).
Defined.

(** *** Responses *)

Lemma JSON_stringify_metadata (circuitType : string) (duration timestamp : Z) :
  JSON_stringify (metadata circuitType duration timestamp) =
  Ok (Some (JObject [("circuitType", JString circuitType);
                     ("duration", json_of_number (number_of_Z duration));
                     ("timestamp", json_of_number (number_of_Z timestamp))])).
Proof. reflexivity. Qed.

(** The error response of the [catch] blocks. *)
Lemma res_json_error_body (env : Env) (e : exn) (s : State) :
  exists members,
    res_json 500 (error_body env e) s =
    (Ok {| status := 500; body := JObject (("error", JString (message e)) :: members) |}, s) /\
    get_prop "valid" members = None.
Proof.
  unfold res_json, error_body, stack_field, bindM, lift, ret.
  destruct (NODE_ENV env) as [m|]; [destruct (m =? "development")|];
    eexists; split; reflexivity.
Qed.

Lemma verdict_error_body (env : Env) (e : exn) (s : State) :
  verdict (fst (res_json 500 (error_body env e) s)) =
  Some (500, None, Some (JString (message e))).
Proof.
  destruct (res_json_error_body env e s) as (members & -> & Hv).
  simpl. now rewrite Hv.
Qed.

(** The result of [resolve_vKey] does not depend on the state. *)
Lemma resolve_vKey_result (env : Env) (c : Circuit) (s : State) :
  fst (resolve_vKey env c s) = vKey_source env c.
Proof.
  unfold resolve_vKey, vKey_source, fs_existsSync, fs_readFileSync,
    snarkjs_exportVerificationKey, bindM, emit, ret, lift.
  simpl. destruct (existsSync env (vKeyPath c)); simpl.
  - destruct (readFileSync env (vKeyPath c)); reflexivity.
  - destruct (exportVerificationKey env (zkey c)); reflexivity.
Qed.

(** What [POST /verify] answers to a request that carries a proof and
    public signals. *)
Lemma post_verify_verdict (env : Env) (req : Body) (s : State) :
  truthy (proof req) = true -> truthy (publicSignals req) = true ->
  verdict (fst (post_verify env req s)) =
  match fst (loadCircuit env (circuitType_or_default req) s) with
  | Throw e => Some (500, None, Some (JString (message e)))
  | Ok c =>
      match vKey_source env c with
      | Throw e => Some (500, None, Some (JString (message e)))
      | Ok vKey =>
          match groth16_verify env vKey (publicSignals req) (proof req) with
          | Throw e => Some (500, None, Some (JString (message e)))
          | Ok isValid => Some (200, Some (JBool isValid), None)
          end
      end
  end.
Proof.
  intros Hp Hs. unfold post_verify. rewrite Hp, Hs. cbn [negb orb].
  unfold try_catch, bindM at 1 2 3, console_log, emit, Date_now.
  match goal with |- context [loadCircuit env ?ct ?s1] =>
    assert (Hfst : fst (loadCircuit env ct s1) = fst (loadCircuit env ct s))
      by (now rewrite !loadCircuit_result);
    destruct (loadCircuit env ct s1) as [[c|e] s2]
  end; simpl in Hfst; rewrite <- Hfst.
  - unfold bindM at 1. pose proof (resolve_vKey_result env c s2) as Hk.
    destruct (resolve_vKey env c s2) as [[vKey|e] s3]; simpl in Hk; rewrite <- Hk.
    + unfold bindM at 1, snarkjs_verify, bindM at 1, emit, lift.
      destruct (groth16_verify env vKey (publicSignals req) (proof req)) as [isValid|e].
      * unfold bindM, res_json, bindM, lift, ret.
        rewrite JSON_stringify_Obj. cbn [stringify_members].
        rewrite JSON_stringify_metadata. reflexivity.
      * unfold bindM at 1. apply verdict_error_body.
    + unfold bindM at 1, emit. apply verdict_error_body.
  - unfold bindM at 1, emit. apply verdict_error_body.
Qed.

Lemma post_verify_missing (env : Env) (req : Body) (s : State) :
  negb (truthy (proof req)) || negb (truthy (publicSignals req)) = true ->
  post_verify env req s =
  (Ok {| status := 400;
         body := JObject [("error", JString "Missing proof or publicSignals")] |}, s).
Proof. intros H. unfold post_verify. now rewrite H. Qed.

Lemma post_prove_missing (env : Env) (req : Body) (s : State) :
  truthy (input req) = false ->
  post_prove env req s =
  (Ok {| status := 400; body := JObject [("error", JString "Missing input parameter")] |}, s).
Proof. intros H. unfold post_prove. now rewrite H. Qed.

(** Under a fixed environment the result of [loadCircuit] is decided by the
    disk: the cache cannot be told from a fresh one. *)
Lemma loadCircuit_result_consistent (env : Env) (circuitType : string) (s : State) :
  consistent env s ->
  fst (loadCircuit env circuitType s) =
  if existsSync env (wasmPath env circuitType) && existsSync env (zkeyPath env circuitType)
  then Ok (artifact env circuitType)
  else Throw (load_error env circuitType).
Proof.
  intros Hs. rewrite loadCircuit_result.
  destruct (Map_get circuitType (circuits s)) as [c|] eqn:Hget; [|reflexivity].
  destruct (Hs _ _ Hget) as (-> & -> & ->). reflexivity.
Qed.

(** *** POST /verify *)

(** C5, as the specification states it, fails: the specification says that
    resolving the verification key fails only when the precomputed key is
    absent and cannot be derived, but the handler reads and parses the
    precomputed file as soon as it exists, so a file that is present and is
    not valid JSON makes the request fail with status 500 although the key
    could be derived from the proving key. *)
Lemma C5_present_key_file_can_fail :
  ~ (forall (env : Env) (req : Body) (s : State) (c : Circuit),
       truthy (proof req) = true -> truthy (publicSignals req) = true ->
       fst (loadCircuit env (circuitType_or_default req) s) = Ok c ->
       is_ok (fst (resolve_vKey env c s)) = false ->
       existsSync env (vKeyPath c) = false /\
       is_ok (exportVerificationKey env (zkey c)) = false).
Proof.
  intros claim.
  destruct (claim (Scenario.service Scenario.bad_vkey_disk) Scenario.verify_request init
                  (artifact (Scenario.service Scenario.bad_vkey_disk) "spending")
                  eq_refl eq_refl eq_refl eq_refl) as [Habsent _].
  discriminate Habsent.
Qed.

(** C5 (amended): for a request that carries a proof and public signals and
    whose circuit loads, the handler takes the verification key from the
    precomputed file next to the proving key when that file exists, and
    exports it from the proving key otherwise; the proof is verified against
    that key. Resolving the key fails, and the request is answered with
    status 500 and the message of the failure, exactly when the precomputed
    file exists and cannot be read or parsed, or does not exist and the
    export from the proving key fails. *)
Theorem C5_verification_key (env : Env) (req : Body) (s : State) (c : Circuit) :
  truthy (proof req) = true -> truthy (publicSignals req) = true ->
  fst (loadCircuit env (circuitType_or_default req) s) = Ok c ->
  (existsSync env (vKeyPath c) = true ->
   fst (resolve_vKey env c s) = bind (readFileSync env (vKeyPath c)) (JSON_parse env)) /\
  (existsSync env (vKeyPath c) = false ->
   fst (resolve_vKey env c s) = exportVerificationKey env (zkey c)) /\
  (forall vKey, fst (resolve_vKey env c s) = Ok vKey ->
     verdict (fst (post_verify env req s)) =
     match groth16_verify env vKey (publicSignals req) (proof req) with
     | Ok isValid => Some (200, Some (JBool isValid), None)
     | Throw e => Some (500, None, Some (JString (message e)))
     end) /\
  (forall e, fst (resolve_vKey env c s) = Throw e ->
     verdict (fst (post_verify env req s)) = Some (500, None, Some (JString (message e)))) /\
  (is_ok (fst (resolve_vKey env c s)) = false <->
   (existsSync env (vKeyPath c) = true /\
    is_ok (bind (readFileSync env (vKeyPath c)) (JSON_parse env)) = false) \/
   (existsSync env (vKeyPath c) = false /\
    is_ok (exportVerificationKey env (zkey c)) = false)).
Proof.
  intros Hp Hs Hload. rewrite resolve_vKey_result.
  rewrite (post_verify_verdict env req s Hp Hs), Hload.
  unfold vKey_source.
  split; [now intros ->|]. split; [now intros ->|].
  split; [now intros vKey ->|]. split; [now intros e ->|].
  destruct (existsSync env (vKeyPath c)); split.
  - intros H. left. auto.
  - intros [[_ H]|[H _]]; [exact H|discriminate].
  - intros H. right. auto.
  - intros [[H _]|[_ H]]; [discriminate|exact H].
Qed.

(** Without a precomputed file the key is exported from the proving key. *)
Lemma C5_verification_key_witness :
  truthy (proof Scenario.verify_request) = true /\
  fst (resolve_vKey (Scenario.service Scenario.full_disk)
         (artifact (Scenario.service Scenario.full_disk) "spending") init) =
  exportVerificationKey (Scenario.service Scenario.full_disk)
    (zkey (artifact (Scenario.service Scenario.full_disk) "spending")).
Proof.
  split; [reflexivity|].
  destruct (C5_verification_key (Scenario.service Scenario.full_disk)
              Scenario.verify_request init
              (artifact (Scenario.service Scenario.full_disk) "spending")
              eq_refl eq_refl eq_refl) as (_ & Habsent & _).
  exact (Habsent eq_refl).
Defined.

(** One run of the service. The first request for a verification arrives
    while the witness generator is not on disk; the file is then put in
    place and a verification is answered, which fills the cache; the file is
    removed again and the first request is repeated. Both times the request
    and the files on disk are the same, and the answers differ. *)
Lemma verify_before_and_after_caching :
  let env := Scenario.service Scenario.no_wasm_disk in
  let req := Scenario.verify_request in
  let s1 := init in
  let s2 := snd (handle (Scenario.service Scenario.full_disk) (PostVerify req)
                   (snd (post_verify env req s1))) in
  verdict (fst (post_verify env req s1)) =
    Some (500, None, Some (JString "WASM file not found: /circuits/spending.wasm")) /\
  verdict (fst (post_verify env req s2)) = Some (200, Some (JBool true), None).
Proof. split; vm_compute; reflexivity. Qed.

(** C6, as the specification states it, fails: the specification says that
    the answer depends on circuitType, proof and publicSignals only (with the
    artifacts on disk), with no hidden state, but the handler loads the
    circuit through the cache, and a cached circuit is used without looking
    at the disk again. In one run of the process, two calls with the same
    request against the same files are answered with status 500 (the WASM
    file is not found) while the circuit is not cached, and with status 200
    and valid true once an earlier request has cached it. *)
Lemma C6_cache_is_hidden_state :
  ~ (forall (env : Env) (s1 s2 : State) (req1 req2 : Body),
       follows init s1 ->
       follows (snd (post_verify env req1 s1)) s2 ->
       circuitType req1 = circuitType req2 ->
       proof req1 = proof req2 ->
       publicSignals req1 = publicSignals req2 ->
       verdict (fst (post_verify env req1 s1)) = verdict (fst (post_verify env req2 s2))).
Proof.
  intros claim.
  destruct verify_before_and_after_caching as [Hbefore Hafter].
  cbv zeta in Hbefore, Hafter.
  pose proof (claim (Scenario.service Scenario.no_wasm_disk) init _
                Scenario.verify_request Scenario.verify_request
                (follows_refl _)
                (follows_step _ (Scenario.service Scenario.full_disk)
                   (PostVerify Scenario.verify_request) _ (follows_refl _))
                eq_refl eq_refl eq_refl) as H.
  rewrite Hbefore, Hafter in H. discriminate H.
Qed.

(** C6, amended: the circuit cache is the only state that the answer of a
    verification depends on. Two calls of the handler with the same circuit
    type, proof and public signals, against the same environment (the same
    files on disk), give the same answer (the same status, the same [valid]
    boolean, the same error) whenever the cache holds the same entry, or
    none, for the circuit type at both calls. This is so in particular in
    any two states that the process reaches while the environment stays as
    it was when the process started. *)
Theorem C6_verify_deterministic (env : Env) (s1 s2 : State) (req1 req2 : Body) :
  circuitType req1 = circuitType req2 ->
  proof req1 = proof req2 ->
  publicSignals req1 = publicSignals req2 ->
  (Map_get (circuitType_or_default req1) (circuits s1) =
   Map_get (circuitType_or_default req1) (circuits s2) ->
   verdict (fst (post_verify env req1 s1)) = verdict (fst (post_verify env req2 s2))) /\
  (reachable env s1 -> reachable env s2 ->
   verdict (fst (post_verify env req1 s1)) = verdict (fst (post_verify env req2 s2))).
Proof.
  intros Hc Hp Hs.
  destruct (negb (truthy (proof req1)) || negb (truthy (publicSignals req1))) eqn:Hm.
  - rewrite (post_verify_missing env req1 s1 Hm).
    rewrite Hp, Hs in Hm. rewrite (post_verify_missing env req2 s2 Hm). now split.
  - apply orb_false_iff in Hm as [Hmp Hms].
    apply negb_false_iff in Hmp, Hms.
    rewrite (post_verify_verdict env req1 s1 Hmp Hms).
    rewrite Hp in Hmp. rewrite Hs in Hms.
    rewrite (post_verify_verdict env req2 s2 Hmp Hms).
    unfold circuitType_or_default. rewrite Hc, Hp, Hs. split.
    + intros Hcache. rewrite !loadCircuit_result, Hcache. reflexivity.
    + intros H1 H2.
      rewrite !loadCircuit_result_consistent by now apply reachable_consistent.
      reflexivity.
Qed.

(** With the files in place from the start, the same request before and
    after the circuit is cached; and, without the witness generator on disk,
    the same request in two states that both hold the circuit in the cache. *)
Lemma C6_verify_deterministic_witness :
  verdict (fst (post_verify (Scenario.service Scenario.full_disk)
                  Scenario.verify_request init)) =
  verdict (fst (post_verify (Scenario.service Scenario.full_disk)
                  Scenario.verify_request
                  (snd (handle (Scenario.service Scenario.full_disk)
                          (PostVerify Scenario.verify_request) init)))) /\
  verdict (fst (post_verify (Scenario.service Scenario.no_wasm_disk)
                  Scenario.verify_request
                  (snd (handle (Scenario.service Scenario.full_disk)
                          (PostVerify Scenario.verify_request) init)))) =
  verdict (fst (post_verify (Scenario.service Scenario.no_wasm_disk)
                  Scenario.verify_request
                  (snd (handle (Scenario.service Scenario.no_wasm_disk)
                          (PostVerify Scenario.verify_request)
                          (snd (handle (Scenario.service Scenario.full_disk)
                                  (PostVerify Scenario.verify_request) init)))))).
Proof.
  split.
  - refine (proj2 (C6_verify_deterministic (Scenario.service Scenario.full_disk) init
             (snd (handle (Scenario.service Scenario.full_disk)
                     (PostVerify Scenario.verify_request) init))
             Scenario.verify_request Scenario.verify_request eq_refl eq_refl eq_refl) _ _).
    + apply reachable_init.
    + apply reachable_step. apply reachable_init.
  - refine (proj1 (C6_verify_deterministic (Scenario.service Scenario.no_wasm_disk)
             (snd (handle (Scenario.service Scenario.full_disk)
                     (PostVerify Scenario.verify_request) init))
             (snd (handle (Scenario.service Scenario.no_wasm_disk)
                     (PostVerify Scenario.verify_request)
                     (snd (handle (Scenario.service Scenario.full_disk)
                             (PostVerify Scenario.verify_request) init))))
             Scenario.verify_request Scenario.verify_request eq_refl eq_refl eq_refl) _).
    vm_compute. reflexivity.
Defined.

(** *** Missing fields *)

(** C8: a request that lacks a required field is answered with status 400
    and an error object, and the state is left as it was: the cache is not
    touched and neither storage nor the prover is called. POST /prove does
    so when [input] is absent, POST /verify when [proof] or [publicSignals]
    is absent. An absent [circuitType] is no error: the request is handled
    as the same request with [circuitType] set to "spending". *)
Theorem C8_missing_field (env : Env) (req : Body) (s : State) :
  (input req = Undefined ->
   post_prove env req s =
   (Ok {| status := 400;
          body := JObject [("error", JString "Missing input parameter")] |}, s)) /\
  (proof req = Undefined \/ publicSignals req = Undefined ->
   post_verify env req s =
   (Ok {| status := 400;
          body := JObject [("error", JString "Missing proof or publicSignals")] |}, s)) /\
  (circuitType req = None ->
   post_prove env req s =
   post_prove env {| input := input req; proof := proof req;
                     publicSignals := publicSignals req;
                     circuitType := Some "spending" |} s /\
   post_verify env req s =
   post_verify env {| input := input req; proof := proof req;
                      publicSignals := publicSignals req;
                      circuitType := Some "spending" |} s).
Proof.
  split; [|split].
  - intros H. apply post_prove_missing. now rewrite H.
  - intros H. apply post_verify_missing.
    destruct H as [-> | ->]; [reflexivity|apply orb_true_r].
  - intros H. unfold post_prove, post_verify, circuitType_or_default.
    rewrite H. split; reflexivity.
Qed.

(** An empty body on both routes, and a body without [circuitType]. *)
Lemma C8_missing_field_witness :
  post_prove (Scenario.service Scenario.full_disk) Scenario.empty_request init =
    (Ok {| status := 400;
           body := JObject [("error", JString "Missing input parameter")] |}, init) /\
  post_verify (Scenario.service Scenario.full_disk) Scenario.empty_request init =
    (Ok {| status := 400;
           body := JObject [("error", JString "Missing proof or publicSignals")] |}, init) /\
  post_prove (Scenario.service Scenario.full_disk) Scenario.prove_request init =
    post_prove (Scenario.service Scenario.full_disk)
      {| input := input Scenario.prove_request; proof := proof Scenario.prove_request;
         publicSignals := publicSignals Scenario.prove_request;
         circuitType := Some "spending" |} init.
Proof.
  destruct (C8_missing_field (Scenario.service Scenario.full_disk)
              Scenario.empty_request init) as (Hprove & Hverify & _).
  destruct (C8_missing_field (Scenario.service Scenario.full_disk)
              Scenario.prove_request init) as (_ & _ & Hdefault).
  split; [exact (Hprove eq_refl)|].
  split; [exact (Hverify (or_introl eq_refl))|].
  exact (proj1 (Hdefault eq_refl)).
Defined.

(** *** POST /prove *)

Lemma status_error_body (env : Env) (e : exn) (s s' : State) (resp : Response) :
  res_json 500 (error_body env e) s = (Ok resp, s') -> status resp = 500.
Proof.
  destruct (res_json_error_body env e s) as (members & -> & _).
  now intros [= <- _].
Qed.

(** The members that [JSON.stringify] writes for the proof and the public
    signals: a member is left out when its value is undefined. *)
Lemma stringify_members_defined (prf sigs : value) (members : list (string * json)) :
  stringify_members [("proof", prf); ("publicSignals", sigs)] = Ok members ->
  prf <> Undefined -> sigs <> Undefined ->
  map fst members = ["proof"; "publicSignals"].
Proof.
  cbn [stringify_members]. intros H Hp Hs.
  destruct (JSON_stringify prf) as [[dp|]|e] eqn:Ep; simpl in H;
    [|now apply JSON_stringify_None in Ep|discriminate].
  destruct (JSON_stringify sigs) as [[ds|]|e] eqn:Es; simpl in H;
    [|now apply JSON_stringify_None in Es|discriminate].
  now injection H as <-.
Qed.

(** The body of a response of [POST /prove] with status 200. *)
Lemma post_prove_success (env : Env) (req : Body) (s s' : State) (resp : Response) :
  post_prove env req s = (Ok resp, s') -> status resp = 200 ->
  exists c prf sigs members duration timestamp,
    fst (loadCircuit env (circuitType_or_default req) s) = Ok c /\
    fullProve env (input req) (wasm c) (zkey c) = Ok (prf, sigs) /\
    stringify_members [("proof", prf); ("publicSignals", sigs)] = Ok members /\
    body resp =
    JObject (members ++
             [("metadata",
               JObject [("circuitType", JString (circuitType_or_default req));
                        ("duration", json_of_number (number_of_Z duration));
                        ("timestamp", json_of_number (number_of_Z timestamp))])]).
Proof.
  unfold post_prove. destruct (truthy (input req)); cbn [negb];
    [|intros [= <- _]; discriminate].
  unfold try_catch, bindM at 1 2 3, console_log, emit, Date_now.
  match goal with |- context [loadCircuit env ?ct ?s1] =>
    assert (Hfst : fst (loadCircuit env ct s1) = fst (loadCircuit env ct s))
      by (now rewrite !loadCircuit_result);
    destruct (loadCircuit env ct s1) as [[c|e] s2]
  end; simpl in Hfst;
    [|unfold bindM at 1, emit; intros H Hst;
      apply status_error_body in H; congruence].
  unfold bindM at 1, snarkjs_fullProve, bindM at 1, emit, lift.
  destruct (fullProve env (input req) (wasm c) (zkey c)) as [[prf sigs]|e] eqn:Hprove;
    [|unfold bindM at 1; intros H Hst; apply status_error_body in H; congruence].
  unfold bindM at 1 2 3, res_json, bindM at 1, lift, ret. cbn [fst snd ticks trace circuits].
  rewrite JSON_stringify_Obj. cbn [stringify_members]. rewrite JSON_stringify_metadata.
  destruct (JSON_stringify prf) as [op|e] eqn:Ep; cbn [bind];
    [|unfold bindM at 1; intros H Hst; apply status_error_body in H; congruence].
  destruct (JSON_stringify sigs) as [os|e] eqn:Es; cbn [bind];
    [|unfold bindM at 1; intros H Hst; apply status_error_body in H; congruence].
  intros [= <- _] _. cbn [body].
  eexists c, prf, sigs, _, _, _.
  split; [now rewrite <- Hfst|]. split; [exact Hprove|].
  cbn [stringify_members]. rewrite Ep, Es. cbn [bind].
  split; [reflexivity|]. destruct op, os; reflexivity.
Qed.

(** C7, as the specification states it, fails: the specification names the
    second field of [metadata] durationMs; the handler names it duration. *)
Lemma C7_metadata_field_is_duration :
  ~ (forall (env : Env) (req : Body) (s s' : State) (resp : Response),
       post_prove env req s = (Ok resp, s') -> status resp = 200 ->
       exists dp ds md,
         body resp = JObject [("proof", dp); ("publicSignals", ds);
                              ("metadata", JObject md)] /\
         map fst md = ["circuitType"; "durationMs"; "timestamp"]).
Proof.
  intros claim.
  destruct (post_prove (Scenario.service Scenario.full_disk) Scenario.prove_request init)
    as [[resp|e] s'] eqn:Hrun; [|vm_compute in Hrun; discriminate Hrun].
  pose proof (claim _ _ _ _ _ Hrun) as H.
  vm_compute in Hrun. injection Hrun as <- _.
  destruct (H eq_refl) as (dp & ds & md & Hbody & Hkeys).
  cbn [body] in Hbody. injection Hbody as _ _ <-. discriminate Hkeys.
Qed.

(** C7 (amended): the body of every response of POST /prove with status 200
    is the object with the members proof and publicSignals, as returned by
    the prover (a member is left out only if the prover returned it
    undefined), followed by metadata, and metadata has exactly the fields
    circuitType, duration and timestamp, circuitType being the one of the
    request. *)
Theorem C7_prove_response (env : Env) (req : Body) (s s' : State) (resp : Response) :
  post_prove env req s = (Ok resp, s') -> status resp = 200 ->
  exists c prf sigs members md,
    fullProve env (input req) (wasm c) (zkey c) = Ok (prf, sigs) /\
    stringify_members [("proof", prf); ("publicSignals", sigs)] = Ok members /\
    body resp = JObject (members ++ [("metadata", JObject md)]) /\
    map fst md = ["circuitType"; "duration"; "timestamp"] /\
    get_prop "circuitType" md = Some (JString (circuitType_or_default req)) /\
    (prf <> Undefined -> sigs <> Undefined ->
     map fst members = ["proof"; "publicSignals"]).
Proof.
  intros Hrun Hstatus.
  destruct (post_prove_success env req s s' resp Hrun Hstatus)
    as (c & prf & sigs & members & duration & timestamp & _ & Hprove & Hmembers & Hbody).
  exists c, prf, sigs, members. eexists.
  split; [exact Hprove|]. split; [exact Hmembers|]. split; [exact Hbody|].
  split; [reflexivity|]. split; [reflexivity|].
  now apply stringify_members_defined.
Qed.

(** A successful request against a full disk. *)
Lemma C7_prove_response_witness :
  exists resp s',
    post_prove (Scenario.service Scenario.full_disk) Scenario.prove_request init =
      (Ok resp, s') /\
    status resp = 200 /\
    exists md,
      json_at [Field "metadata"] (body resp) = Some (JObject md) /\
      map fst md = ["circuitType"; "duration"; "timestamp"].
Proof.
  destruct (post_prove (Scenario.service Scenario.full_disk) Scenario.prove_request init)
    as [[resp|e] s'] eqn:Hrun; [|vm_compute in Hrun; discriminate Hrun].
  assert (Hstatus : status resp = 200).
  { pose proof Hrun as Hval. vm_compute in Hval. now injection Hval as <- _. }
  exists resp, s'. split; [reflexivity|]. split; [exact Hstatus|].
  destruct (C7_prove_response _ _ _ _ _ Hrun Hstatus)
    as (c & prf & sigs & members & md & Hprove & Hmembers & Hbody & Hkeys & _).
  exists md. split; [|exact Hkeys].
  rewrite Hbody. injection Hprove as <- <-.
  injection Hmembers as <-. reflexivity.
Defined.

End ServiceProofs.

(* ===================================================================== *)
(** ** prove.js: further properties *)
(* ===================================================================== *)

Module ProveCliExtras.
Import JS JSFacts ProveCli ProveCliProofs.

(** *** [stringifyBigInts] *)

Lemma stringifyBigInts_no_bigint (v : value) :
  holds_bigint (stringifyBigInts v) = false.
Proof.
  induction v as [| |b|x|n|s|items IH|props IH] using value_ind_deep;
    try reflexivity; simpl.
  - induction IH as [|x l Hx _ IHl]; simpl; [reflexivity|]. now rewrite Hx, IHl.
  - induction IH as [|[k x] l Hx _ IHl]; simpl; [reflexivity|].
    simpl in Hx. now rewrite Hx, IHl.
Qed.

Lemma stringifyBigInts_unchanged (v : value) :
  holds_bigint v = false -> stringifyBigInts v = v.
Proof.
  induction v as [| |b|x|n|s|items IH|props IH] using value_ind_deep;
    intros H; try reflexivity; simpl in H; try discriminate; simpl; f_equal.
  - induction IH as [|x l Hx _ IHl]; simpl; [reflexivity|].
    simpl in H. apply orb_false_iff in H as [H1 H2]. now rewrite Hx, IHl.
  - induction IH as [|[k x] l Hx _ IHl]; simpl; [reflexivity|].
    simpl in H, Hx. apply orb_false_iff in H as [H1 H2]. now rewrite Hx, IHl.
Qed.

(** X1: [stringifyBigInts] removes every BigInt and touches nothing else.
    Its result holds no BigInt; a value that holds no BigInt (such as the
    decimal strings that snarkjs returns) comes back unchanged; applying it
    twice is the same as applying it once. *)
Theorem X1_stringifyBigInts_only_bigints (v : value) :
  holds_bigint (stringifyBigInts v) = false /\
  (holds_bigint v = false -> stringifyBigInts v = v) /\
  stringifyBigInts (stringifyBigInts v) = stringifyBigInts v.
Proof.
  split; [apply stringifyBigInts_no_bigint|]. split.
  - apply stringifyBigInts_unchanged.
  - apply stringifyBigInts_unchanged, stringifyBigInts_no_bigint.
Qed.

(** A proof made of decimal strings passes through unchanged. *)
Lemma X1_stringifyBigInts_only_bigints_witness :
  holds_bigint (Obj [("pi_a", Arr [Str "12"; Str "7"]); ("protocol", Str "groth16")]) = false /\
  stringifyBigInts (Obj [("pi_a", Arr [Str "12"; Str "7"]); ("protocol", Str "groth16")]) =
  Obj [("pi_a", Arr [Str "12"; Str "7"]); ("protocol", Str "groth16")].
Proof.
  split; [reflexivity|].
  exact (proj1 (proj2 (X1_stringifyBigInts_only_bigints
           (Obj [("pi_a", Arr [Str "12"; Str "7"]); ("protocol", Str "groth16")]))) eq_refl).
Defined.

(** X2: [stringifyBigInts] keeps the shape of a value. Along every path
    (array indices and property names) the result holds the image of what
    the value holds there, and nothing where the value holds nothing; where
    the value holds an object the result holds an object with the same
    property names in the same order, and where it holds an array the result
    holds an array of the same length. *)
Theorem X2_stringifyBigInts_keeps_shape (v : value) :
  (forall p, value_at p (stringifyBigInts v) = option_map stringifyBigInts (value_at p v)) /\
  (forall p props,
     value_at p v = Some (Obj props) ->
     exists props', value_at p (stringifyBigInts v) = Some (Obj props') /\
                    map fst props' = map fst props) /\
  (forall p items,
     value_at p v = Some (Arr items) ->
     exists items', value_at p (stringifyBigInts v) = Some (Arr items') /\
                    List.length items' = List.length items).
Proof.
  assert (Hpath : forall p w, value_at p (stringifyBigInts w) =
                              option_map stringifyBigInts (value_at p w)).
  { induction p as [|[i|k] p IH]; intros w; [reflexivity| |].
    - destruct w; try reflexivity. simpl. rewrite nth_error_map.
      destruct (nth_error items i); simpl; [apply IH|reflexivity].
    - destruct w; try reflexivity. simpl. rewrite get_prop_map.
      destruct (get_prop k props); simpl; [apply IH|reflexivity]. }
  split; [intros p; apply Hpath|]. split.
  - intros p props H. rewrite Hpath, H. simpl. eexists. split; [reflexivity|].
    rewrite map_map. apply map_ext. now intros [k x].
  - intros p items H. rewrite Hpath, H. simpl. eexists. split; [reflexivity|].
    apply length_map.
Qed.

(** The proof object of the scenario: same keys in the same order. *)
Lemma X2_stringifyBigInts_keeps_shape_witness :
  exists props',
    value_at [] (stringifyBigInts Scenario.bigint_proof) = Some (Obj props') /\
    map fst props' = ["pi_a"; "protocol"].
Proof.
  exact (proj1 (proj2 (X2_stringifyBigInts_keeps_shape Scenario.bigint_proof))
               [] _ eq_refl).
Defined.

(** *** [main] *)

(** X3: every run writes exactly one JSON document, either to standard
    output or to standard error, never to both. It is written to standard
    error, with the text of the exception thrown and followed by
    [process.exit(1)], exactly when an argument is missing, the input cannot
    be read or parsed, or proof generation fails; otherwise it is written to
    standard output and the program does not call [process.exit]. *)
Theorem X3_main_one_stream (env : Env) (argv : list string) :
  (failing env argv /\
   exists e, main_try env argv = Throw e /\
             main env argv =
             {| stdout := [];
                stderr := [JObject [("error",
                             JString (if message e =? "" then name e else message e))]];
                exitCode := Some 1%Z |}) \/
  (~ failing env argv /\
   exists doc, main_try env argv = Ok doc /\
               main env argv = {| stdout := [doc]; stderr := []; exitCode := None |}).
Proof.
  unfold main. destruct (main_try env argv) as [doc|e] eqn:Hrun.
  - right. split; [|now exists doc].
    intros Hf. destruct (main_try_failing _ _ Hf) as [e He]. congruence.
  - left. split; [now apply (main_try_Throw_failing _ _ e)|].
    exists e. now rewrite catch_message_text.
Qed.

(** X4: with fewer than three positional arguments, or with one of the three
    empty, the run reports the usage line whatever the files hold; arguments
    after the third are ignored. *)
Theorem X4_usage_error (env : Env) (argv : list string) :
  (missing_argument argv ->
   main env argv =
   {| stdout := [];
      stderr := [JObject [("error",
                   JString "Usage: node prove.js <zkeyPath> <wasmPath> <inputJsonPath>")]];
      exitCode := Some 1%Z |}) /\
  (forall node script zkeyPath wasmPath inputPath rest,
     main env (node :: script :: zkeyPath :: wasmPath :: inputPath :: rest) =
     main env [node; script; zkeyPath; wasmPath; inputPath]).
Proof.
  split; [|reflexivity].
  unfold main, main_try, missing_argument.
  destruct argv as [|a0 [|a1 [|z [|w [|i rest]]]]]; simpl; try reflexivity.
  intros [-> | [-> | ->]]; simpl; rewrite ?orb_true_r; reflexivity.
Qed.

(** An empty third argument. *)
Lemma X4_usage_error_witness :
  missing_argument ["node"; "prove.js"; "spending_final.zkey"; "spending.wasm"; ""] /\
  main (Scenario.cli Scenario.field_proof Scenario.field_signals)
       ["node"; "prove.js"; "spending_final.zkey"; "spending.wasm"; ""] =
  {| stdout := [];
     stderr := [JObject [("error",
                  JString "Usage: node prove.js <zkeyPath> <wasmPath> <inputJsonPath>")]];
     exitCode := Some 1%Z |}.
Proof.
  assert (H : missing_argument
                ["node"; "prove.js"; "spending_final.zkey"; "spending.wasm"; ""])
    by (right; right; reflexivity).
  split; [exact H|].
  exact (proj1 (X4_usage_error (Scenario.cli Scenario.field_proof Scenario.field_signals)
                  ["node"; "prove.js"; "spending_final.zkey"; "spending.wasm"; ""]) H).
Defined.

(** X5: when no argument is missing, the error written to standard error is
    the one of the first step that fails, in the order read, parse, prove:
    its message, or its name when the message is empty. The prover is called
    with the parsed input, the second argument as witness generator and the
    first as proving key. *)
Theorem X5_failure_message (env : Env) (argv : list string) :
  ~ missing_argument argv ->
  (forall e, readFileSync env (input_path argv) = Throw e ->
     main env argv =
     {| stdout := []; stderr := [JObject [("error", JString (catch_message e))]];
        exitCode := Some 1%Z |}) /\
  (forall text e,
     readFileSync env (input_path argv) = Ok text -> JSON_parse env text = Throw e ->
     main env argv =
     {| stdout := []; stderr := [JObject [("error", JString (catch_message e))]];
        exitCode := Some 1%Z |}) /\
  (forall text input e,
     readFileSync env (input_path argv) = Ok text -> JSON_parse env text = Ok input ->
     fullProve env input (nth 3 argv "") (nth 2 argv "") = Throw e ->
     main env argv =
     {| stdout := []; stderr := [JObject [("error", JString (catch_message e))]];
        exitCode := Some 1%Z |}) /\
  (forall e, catch_message e = if message e =? "" then name e else message e).
Proof.
  intros Hargs. destruct (arguments_present _ Hargs) as (rest & Hskip & Hz & Hw & Hi).
  unfold main, main_try. rewrite Hskip, !eqb_empty_false by assumption.
  simpl orb. cbv iota. unfold wasm_path, zkey_path.
  split; [|split; [|split]].
  - intros e ->. reflexivity.
  - intros text e -> H. simpl. now rewrite H.
  - intros text input e -> Hp H. simpl. rewrite Hp. simpl. now rewrite H.
  - intros e. unfold catch_message, Error_toString.
    destruct (message e =? "") eqn:Hm; [|reflexivity].
    apply String.eqb_eq in Hm. destruct (name e =? "") eqn:Hn; [|reflexivity].
    apply String.eqb_eq in Hn. congruence.
Qed.

(** A run whose input file is not JSON. *)
Lemma X5_failure_message_witness :
  main {| readFileSync := fun _ => Ok "not json";
          JSON_parse := Scenario.parse;
          fullProve := fun _ _ _ => Ok (Scenario.field_proof, Scenario.field_signals) |}
       Scenario.argv =
  {| stdout := [];
     stderr := [JObject [("error", JString "Unexpected token in JSON")]];
     exitCode := Some 1%Z |}.
Proof.
  assert (Hargs : ~ missing_argument Scenario.argv).
  { simpl. intros [H|[H|H]]; discriminate. }
  destruct (X5_failure_message
              {| readFileSync := fun _ => Ok "not json";
                 JSON_parse := Scenario.parse;
                 fullProve := fun _ _ _ => Ok (Scenario.field_proof, Scenario.field_signals) |}
              Scenario.argv Hargs) as (_ & Hparse & _).
  exact (Hparse "not json" Scenario.SyntaxError eq_refl eq_refl).
Defined.

End ProveCliExtras.

(* ===================================================================== *)
(** ** Facts about the string operations *)
(* ===================================================================== *)

Module StringFacts.
Import ProverService.

Lemma length_append (a b : string) :
  String.length (a ++ b) = String.length a + String.length b.
Proof. induction a as [|c a IH]; simpl; [reflexivity|now rewrite IH]. Qed.

Lemma substring_all (s : string) : substring 0 (String.length s) s = s.
Proof. induction s as [|c s IH]; simpl; [reflexivity|now rewrite IH]. Qed.

Lemma substring_skip (a b : string) (m : nat) :
  substring (String.length a) m (a ++ b) = substring 0 m b.
Proof. induction a as [|c a IH]; simpl; [reflexivity|exact IH]. Qed.

Lemma substring_take (a b : string) : substring 0 (String.length a) (a ++ b) = a.
Proof.
  induction a as [|c a IH]; simpl; [now destruct b|now rewrite IH].
Qed.

Lemma prefix_append (p q : string) : prefix p (p ++ q) = true.
Proof. apply prefix_correct, substring_take. Qed.

Lemma String_replace_unfold (pattern replacement s : string) :
  String_replace pattern replacement s =
  if prefix pattern s
  then replacement ++ substring (String.length pattern)
                                 (String.length s - String.length pattern) s
  else match s with
       | EmptyString => s
       | String c s' => String c (String_replace pattern replacement s')
       end.
Proof. destruct s; reflexivity. Qed.

(** [String_replace] rewrites the first occurrence of the pattern and
    nothing else. *)
Lemma String_replace_first (pattern replacement post : string) :
  forall pre,
    index 0 pattern (pre ++ pattern ++ post) = Some (String.length pre) ->
    String_replace pattern replacement (pre ++ pattern ++ post) =
    pre ++ replacement ++ post.
Proof.
  induction pre as [|c pre IH]; intros H.
  - simpl. rewrite String_replace_unfold, prefix_append, length_append.
    replace (String.length pattern + String.length post - String.length pattern)
      with (String.length post) by lia.
    now rewrite substring_skip, substring_all.
  - change (String c pre ++ pattern ++ post) with (String c (pre ++ pattern ++ post)) in *.
    cbn [index String.length] in H.
    destruct (prefix pattern (String c (pre ++ pattern ++ post))) eqn:Hp; [discriminate|].
    destruct (index 0 pattern (pre ++ pattern ++ post)) as [n|] eqn:Hi; [|discriminate].
    injection H as ->. rewrite String_replace_unfold, Hp.
    change (String c pre ++ replacement ++ post) with (String c (pre ++ replacement ++ post)).
    f_equal. now apply IH.
Qed.

(** Without an occurrence of the pattern the string is returned as it is. *)
Lemma String_replace_none (pattern replacement : string) :
  forall s, index 0 pattern s = None -> String_replace pattern replacement s = s.
Proof.
  induction s as [|c s IH]; intros H; rewrite String_replace_unfold.
  - destruct pattern; [discriminate H|reflexivity].
  - cbn [index] in H. destruct (prefix pattern (String c s)); [discriminate|].
    destruct (index 0 pattern s); [discriminate|]. now rewrite IH.
Qed.

Lemma String_endsWith_append (a b : string) : String_endsWith (a ++ b) b = true.
Proof.
  unfold String_endsWith. rewrite length_append.
  replace (String.length a + String.length b - String.length b) with (String.length a) by lia.
  rewrite substring_skip, substring_all, String.eqb_refl, andb_true_r.
  apply Nat.leb_le. lia.
Qed.

End StringFacts.

(* ===================================================================== *)
(** ** prover-service/index.js: further properties *)
(* ===================================================================== *)

Module ServiceExtras.
Import JS JSFacts ProverService CircuitCacheProofs ServiceProofs StringFacts.

#[local] Arguments String.append : simpl never.

(** *** What the computations of the service return *)

Lemma returns_bindM {A B : Type} (P : B -> Prop) (m : M A) (k : A -> M B) :
  (forall a, returns P (k a)) -> returns P (bindM m k).
Proof.
  intros Hk s b s' H. unfold bindM in H.
  destruct (m s) as [[a|e] s1]; [now apply (Hk a s1 b s')|discriminate].
Qed.

Lemma returns_try_catch {A : Type} (P : A -> Prop) (m : M A) (h : exn -> M A) :
  returns P m -> (forall e, returns P (h e)) -> returns P (try_catch m h).
Proof.
  intros Hm Hh s a s' H. unfold try_catch in H.
  destruct (m s) as [[a0|e] s1] eqn:E.
  - injection H as <- <-. now apply (Hm s a0 s1).
  - now apply (Hh e s1 a s').
Qed.

Lemma returns_res_json (P : Response -> Prop) (code : nat) (o : value) :
  (forall d, P {| status := code; body := d |}) -> returns P (res_json code o).
Proof.
  intros HP s a s' H. unfold res_json, bindM, lift, ret in H.
  destruct (JSON_stringify o) as [d|e]; [|discriminate].
  injection H as <- _. apply HP.
Qed.

Ltac returns_step :=
  match goal with
  | |- returns _ (bindM _ _) => apply returns_bindM; intros ?
  | |- returns _ (try_catch _ _) => apply returns_try_catch; [|intros ?]
  | |- returns _ (res_json _ _) => apply returns_res_json; intros ?
  | |- returns _ (if ?b then _ else _) => destruct b
  | |- returns _ (let (_, _) := ?p in _) => destruct p
  end.

Ltac unfold_routes :=
  unfold get_health, post_prove, post_verify, get_circuits_route.

(** The [catch] blocks always answer. *)
Lemma catch_answers (env : Env) (label : string) (e : exn) (s : State) :
  exists resp s',
    bindM (emit (ConsoleErrorExn label e)) (fun _ => res_json 500 (error_body env e)) s =
    (Ok resp, s').
Proof.
  unfold bindM at 1, emit.
  match goal with |- context [res_json 500 _ ?s1] =>
    destruct (res_json_error_body env e s1) as (members & -> & _) end.
  eexists. eexists. reflexivity.
Qed.

Lemma try_catch_answers {A : Type} (m : M A) (h : exn -> M A) (s : State) :
  (forall e s1, exists a s', h e s1 = (Ok a, s')) ->
  exists a s', try_catch m h s = (Ok a, s').
Proof.
  intros Hh. unfold try_catch. destruct (m s) as [[a|e] s1]; [|apply Hh].
  eexists. eexists. reflexivity.
Qed.

(** X7: no exception escapes a route. Every request to GET /health,
    POST /prove, POST /verify or GET /circuits is answered, whatever the
    library calls do, and the status of the answer is 200, 400 or 500. *)
Theorem X7_every_request_is_answered (env : Env) (r : request) (s : State) :
  exists resp s',
    handle env r s = (Ok resp, s') /\
    (status resp = 200 \/ status resp = 400 \/ status resp = 500).
Proof.
  assert (Hanswer : exists resp s', handle env r s = (Ok resp, s')).
  { destruct r as [|req|req|]; simpl.
    - rewrite get_health_response. eexists. eexists. reflexivity.
    - apply try_catch_answers. intros e s1. apply catch_answers.
    - apply try_catch_answers. intros e s1. apply catch_answers.
    - apply try_catch_answers. intros e s1. eexists. eexists. reflexivity. }
  destruct Hanswer as (resp & s' & Hrun). exists resp, s'. split; [exact Hrun|].
  revert s resp s' Hrun.
  change (returns (fun resp => status resp = 200 \/ status resp = 400 \/ status resp = 500)
                  (handle env r)).
  destruct r as [|req|req|]; simpl; unfold_routes;
    repeat returns_step; simpl; auto.
Qed.

(** X8: POST /prove answers 400 exactly when [input] is falsy, and
    POST /verify exactly when [proof] or [publicSignals] is falsy. Falsy is
    more than absent: null, false, 0, NaN, the empty string and 0n are
    refused as missing, while an empty object or array is accepted. *)
Theorem X8_bad_request_iff_falsy (env : Env) (req : Body) (s s' : State) (resp : Response) :
  (post_prove env req s = (Ok resp, s') ->
   (status resp = 400 <-> truthy (input req) = false)) /\
  (post_verify env req s = (Ok resp, s') ->
   (status resp = 400 <-> truthy (proof req) && truthy (publicSignals req) = false)).
Proof.
  split; intros Hrun.
  - destruct (truthy (input req)) eqn:Ht.
    + split; [|discriminate]. intros H400. exfalso. revert H400. revert s resp s' Hrun.
      change (returns (fun resp => status resp <> 400) (post_prove env req)).
      unfold post_prove. rewrite Ht. cbn [negb].
      repeat returns_step; simpl; discriminate.
    + rewrite (post_prove_missing env req s Ht) in Hrun. injection Hrun as <- _.
      split; reflexivity.
  - destruct (truthy (proof req) && truthy (publicSignals req)) eqn:Ht.
    + split; [|discriminate]. intros H400. exfalso. revert H400. revert s resp s' Hrun.
      change (returns (fun resp => status resp <> 400) (post_verify env req)).
      apply andb_true_iff in Ht as [Hp Hs].
      unfold post_verify, resolve_vKey. rewrite Hp, Hs. cbn [negb orb].
      repeat returns_step; simpl; discriminate.
    + assert (Hm : negb (truthy (proof req)) || negb (truthy (publicSignals req)) = true).
      { destruct (truthy (proof req)), (truthy (publicSignals req)); try discriminate;
          reflexivity. }
      rewrite (post_verify_missing env req s Hm) in Hrun. injection Hrun as <- _.
      split; reflexivity.
Qed.

(** An input of 0 is refused. *)
Lemma X8_bad_request_iff_falsy_witness :
  post_prove (Scenario.service Scenario.full_disk)
    {| input := Number (number_of_Z 0); proof := Undefined; publicSignals := Undefined;
       circuitType := None |} init =
  (Ok {| status := 400; body := JObject [("error", JString "Missing input parameter")] |},
   init) /\
  status {| status := 400; body := JObject [("error", JString "Missing input parameter")] |}
    = 400.
Proof.
  assert (Hrun : post_prove (Scenario.service Scenario.full_disk)
    {| input := Number (number_of_Z 0); proof := Undefined; publicSignals := Undefined;
       circuitType := None |} init =
    (Ok {| status := 400; body := JObject [("error", JString "Missing input parameter")] |},
     init)) by reflexivity.
  split; [exact Hrun|].
  exact (proj2 (proj1 (X8_bad_request_iff_falsy _ _ _ _ _) Hrun) eq_refl).
Defined.

(** *** BigInts in a response *)

(** [JSON.stringify] throws exactly on the values that hold a BigInt. *)
Lemma JSON_stringify_bigint (v : value) :
  (holds_bigint v = true -> JSON_stringify v = Throw BigInt_TypeError) /\
  (holds_bigint v = false -> exists o, JSON_stringify v = Ok o).
Proof.
  induction v as [| |b|x|n|s|items IH|props IH] using value_ind_deep;
    try (split; [discriminate|intros _; eexists; reflexivity]).
  - split; [reflexivity|discriminate].
  - rewrite JSON_stringify_Arr. simpl holds_bigint.
    assert (H : (existsb holds_bigint items = true ->
                 stringify_elements items = Throw BigInt_TypeError) /\
                (existsb holds_bigint items = false ->
                 exists js, stringify_elements items = Ok js)).
    { induction IH as [|x l [Hx1 Hx2] _ [Hl1 Hl2]]; simpl.
      - split; [discriminate|intros _; eexists; reflexivity].
      - destruct (holds_bigint x); simpl.
        + split; [intros _; now rewrite Hx1|discriminate].
        + destruct (Hx2 eq_refl) as [o ->]. simpl. split.
          * intros H. now rewrite (Hl1 H).
          * intros H. destruct (Hl2 H) as [js ->]. eexists; reflexivity. }
    destruct H as [H1 H2]. split; intros H.
    + now rewrite (H1 H).
    + destruct (H2 H) as [js ->]. eexists; reflexivity.
  - rewrite JSON_stringify_Obj. simpl holds_bigint.
    assert (H : (existsb (fun '(_, x) => holds_bigint x) props = true ->
                 stringify_members props = Throw BigInt_TypeError) /\
                (existsb (fun '(_, x) => holds_bigint x) props = false ->
                 exists ms, stringify_members props = Ok ms)).
    { induction IH as [|[k x] l [Hx1 Hx2] _ [Hl1 Hl2]]; simpl.
      - split; [discriminate|intros _; eexists; reflexivity].
      - simpl in Hx1, Hx2. destruct (holds_bigint x); simpl.
        + split; [intros _; now rewrite Hx1|discriminate].
        + destruct (Hx2 eq_refl) as [o ->]. simpl. split.
          * intros H. now rewrite (Hl1 H).
          * intros H. destruct (Hl2 H) as [ms ->]. eexists; reflexivity. }
    destruct H as [H1 H2]. split; intros H.
    + now rewrite (H1 H).
    + destruct (H2 H) as [ms ->]. eexists; reflexivity.
Qed.

(** X9: unlike the command-line prover, POST /prove does not convert
    BigInts. When the circuit loads and the prover succeeds, the request is
    answered with status 200 if neither the proof nor the public signals
    hold a BigInt, and otherwise with status 500 and the error of
    [JSON.stringify], "Do not know how to serialize a BigInt". *)
Theorem X9_prove_bigint_is_an_error
  (env : Env) (req : Body) (s : State) (c : Circuit) (prf sigs : value) :
  truthy (input req) = true ->
  fst (loadCircuit env (circuitType_or_default req) s) = Ok c ->
  fullProve env (input req) (wasm c) (zkey c) = Ok (prf, sigs) ->
  exists resp s',
    post_prove env req s = (Ok resp, s') /\
    if holds_bigint prf || holds_bigint sigs
    then status resp = 500 /\
         json_at [Field "error"] (body resp) =
         Some (JString "Do not know how to serialize a BigInt")
    else status resp = 200.
Proof.
  intros Ht Hload Hprove. unfold post_prove. rewrite Ht. cbn [negb].
  unfold try_catch, bindM at 1 2 3, console_log, emit, Date_now.
  match goal with |- context [loadCircuit env ?ct ?s1] =>
    assert (Hfst : fst (loadCircuit env ct s1) = fst (loadCircuit env ct s))
      by (now rewrite !loadCircuit_result);
    destruct (loadCircuit env ct s1) as [[c'|e] s2]
  end; simpl in Hfst; rewrite Hload in Hfst; [|discriminate].
  injection Hfst as ->.
  unfold bindM at 1, snarkjs_fullProve, bindM at 1, emit, lift. rewrite Hprove.
  unfold bindM at 1 2 3, res_json at 1, bindM at 1, lift, ret.
  cbn [fst snd ticks trace circuits].
  rewrite JSON_stringify_Obj. cbn [stringify_members]. rewrite JSON_stringify_metadata.
  destruct (JSON_stringify_bigint prf) as [Hp1 Hp2].
  destruct (JSON_stringify_bigint sigs) as [Hs1 Hs2].
  destruct (holds_bigint prf); cbn [orb].
  - rewrite (Hp1 eq_refl). cbn [bind]. unfold bindM at 1.
    match goal with |- context [res_json 500 _ ?s1] =>
      destruct (res_json_error_body env BigInt_TypeError s1) as (members & -> & _) end.
    eexists. eexists. split; [reflexivity|]. split; reflexivity.
  - destruct (Hp2 eq_refl) as [op ->]. cbn [bind].
    destruct (holds_bigint sigs).
    + rewrite (Hs1 eq_refl). cbn [bind]. unfold bindM at 1.
      match goal with |- context [res_json 500 _ ?s1] =>
        destruct (res_json_error_body env BigInt_TypeError s1) as (members & -> & _) end.
      eexists. eexists. split; [reflexivity|]. split; reflexivity.
    + destruct (Hs2 eq_refl) as [os ->]. cbn [bind].
      eexists. eexists. split; reflexivity.
Qed.

(** A prover that returns bigints, as the command-line prover expects. *)
Lemma X9_prove_bigint_is_an_error_witness :
  exists resp s',
    post_prove (Scenario.bigint_service Scenario.full_disk) Scenario.prove_request init =
      (Ok resp, s') /\
    status resp = 500 /\
    json_at [Field "error"] (body resp) =
    Some (JString "Do not know how to serialize a BigInt").
Proof.
  exact (X9_prove_bigint_is_an_error
           (Scenario.bigint_service Scenario.full_disk) Scenario.prove_request init
           (artifact (Scenario.bigint_service Scenario.full_disk) "spending")
           Scenario.bigint_proof Scenario.bigint_signals eq_refl eq_refl eq_refl).
Defined.

(** *** Error bodies *)

(** X10: outside development mode an error answer discloses the message
    only. On every route, a response with status 500 has the body
    [{error: message}] and no stack member, unless NODE_ENV is
    "development". *)
Theorem X10_no_stack_outside_development
  (env : Env) (r : request) (s s' : State) (resp : Response) :
  NODE_ENV env <> Some "development" ->
  handle env r s = (Ok resp, s') ->
  status resp = 500 ->
  exists msg, body resp = JObject [("error", JString msg)].
Proof.
  intros Hmode. revert s resp s'.
  change (returns (fun resp => status resp = 500 ->
                               exists msg, body resp = JObject [("error", JString msg)])
                  (handle env r)).
  assert (Hcatch : forall e,
            returns (fun resp => status resp = 500 ->
                                 exists msg, body resp = JObject [("error", JString msg)])
                    (res_json 500 (error_body env e))).
  { intros e s a s' H _. unfold res_json, error_body, stack_field, bindM, lift, ret in H.
    destruct (NODE_ENV env) as [m|] eqn:Hm.
    - destruct (m =? "development") eqn:Em.
      + apply String.eqb_eq in Em. subst m. congruence.
      + injection H as <- _. eexists. reflexivity.
    - injection H as <- _. eexists. reflexivity. }
  assert (Hlist : forall e,
            returns (fun resp => status resp = 500 ->
                                 exists msg, body resp = JObject [("error", JString msg)])
                    (res_json 500 (Obj [("error", Str (message e))]))).
  { intros e s a s' H _. injection H as <- _. eexists. reflexivity. }
  destruct r as [|req|req|]; cbn [handle]; unfold_routes;
    repeat match goal with
           | |- returns _ (res_json 500 (error_body _ _)) => apply Hcatch
           | |- returns _ (res_json 500 (Obj [("error", Str (message _))])) => apply Hlist
           | _ => returns_step
           end;
    cbn [status]; discriminate.
Qed.

(** A load that fails on an empty disk, NODE_ENV being unset. *)
Lemma X10_no_stack_outside_development_witness :
  exists msg,
    body (match fst (post_prove (Scenario.service Scenario.empty_disk)
                       Scenario.prove_request init) with
          | Ok resp => resp
          | Throw _ => {| status := 0; body := JNull |}
          end) = JObject [("error", JString msg)].
Proof.
  destruct (post_prove (Scenario.service Scenario.empty_disk) Scenario.prove_request init)
    as [[resp|e] s'] eqn:Hrun; [|vm_compute in Hrun; discriminate Hrun].
  apply (X10_no_stack_outside_development
           (Scenario.service Scenario.empty_disk) (PostProve Scenario.prove_request)
           init s' resp); [discriminate|exact Hrun|].
  vm_compute in Hrun. now injection Hrun as <- _.
Defined.

(** X11: in development mode the error answers of POST /prove and
    POST /verify disclose the stack of the error as well: with NODE_ENV set
    to "development", a response with status 500 has the body
    [{error: message, stack: stack}] of the exception that was caught. *)
Theorem X11_stack_in_development
  (env : Env) (req : Body) (s s' : State) (resp : Response) :
  NODE_ENV env = Some "development" ->
  post_prove env req s = (Ok resp, s') \/ post_verify env req s = (Ok resp, s') ->
  status resp = 500 ->
  exists e, body resp = JObject [("error", JString (message e));
                                 ("stack", JString (stack_of env e))].
Proof.
  intros Hmode Hrun.
  assert (Hcatch : forall e,
            returns (fun resp => status resp = 500 ->
                       exists e, body resp = JObject [("error", JString (message e));
                                                      ("stack", JString (stack_of env e))])
                    (res_json 500 (error_body env e))).
  { intros e s0 a s0' H _. unfold res_json, error_body, stack_field, bindM, lift, ret in H.
    rewrite Hmode in H. injection H as <- _. now exists e. }
  destruct Hrun as [Hrun|Hrun]; revert s resp s' Hrun;
    match goal with
    | |- forall s resp s', ?m s = _ -> ?Q =>
        change (returns (fun resp => status resp = 500 ->
                  exists e, body resp = JObject [("error", JString (message e));
                                                 ("stack", JString (stack_of env e))]) m)
    end;
    unfold_routes; unfold resolve_vKey;
    repeat match goal with
           | |- returns _ (res_json 500 (error_body _ _)) => apply Hcatch
           | _ => returns_step
           end;
    cbn [status]; discriminate.
Qed.

(** A load that fails on an empty disk, in development mode. *)
Lemma X11_stack_in_development_witness :
  exists e,
    body (match fst (post_verify
                       {| CIRCUIT_DIR := Some "/circuits";
                          NODE_ENV := Some "development";
                          dirname := "/srv";
                          path_join := fun d f => d ++ "/" ++ f;
                          existsSync := fun _ => false;
                          readFileSync := fun p => Throw (Scenario.ENOENT p);
                          readdirSync := fun p => Throw (Scenario.ENOENT p);
                          JSON_parse := Scenario.parse;
                          fullProve := fun _ _ _ => Ok (Str "proof", Arr [Str "1"]);
                          exportVerificationKey := fun _ => Ok (Obj []);
                          groth16_verify := fun _ _ _ => Ok true;
                          stack_of := fun e => "Error: " ++ message e ++ " at loadCircuit";
                          clock := fun i => Z.of_nat i |}
                       Scenario.verify_request init) with
          | Ok resp => resp
          | Throw _ => {| status := 0; body := JNull |}
          end) =
    JObject [("error", JString (message e));
             ("stack", JString ("Error: " ++ message e ++ " at loadCircuit"))].
Proof.
  match goal with |- context [post_verify ?env ?req ?s] =>
    destruct (post_verify env req s) as [[resp|e] s'] eqn:Hrun;
      [|vm_compute in Hrun; discriminate Hrun];
    apply (X11_stack_in_development env req s s' resp eq_refl (or_intror Hrun))
  end.
  vm_compute in Hrun. now injection Hrun as <- _.
Defined.

(** *** Loading *)

(** X12: the witness generator is checked first. For a circuit type that is
    not cached, a missing .wasm file is reported as "WASM file not found"
    without the proving key being looked at, whether it exists or not; the
    proving key is checked, and reported as "ZKey file not found", only when
    the witness generator is there. *)
Theorem X12_witness_generator_checked_first
  (env : Env) (circuitType : string) (s : State) :
  Map_get circuitType (circuits s) = None ->
  (existsSync env (wasmPath env circuitType) = false ->
   fst (loadCircuit env circuitType s) =
     Throw (mkError "Error" ("WASM file not found: " ++ wasmPath env circuitType)) /\
   storage_accesses (trace (snd (loadCircuit env circuitType s))) =
     (storage_accesses (trace s) ++ [ExistsSync (wasmPath env circuitType)])%list) /\
  (existsSync env (wasmPath env circuitType) = true ->
   existsSync env (zkeyPath env circuitType) = false ->
   fst (loadCircuit env circuitType s) =
     Throw (mkError "Error" ("ZKey file not found: " ++ zkeyPath env circuitType)) /\
   storage_accesses (trace (snd (loadCircuit env circuitType s))) =
     (storage_accesses (trace s) ++
      [ExistsSync (wasmPath env circuitType); ExistsSync (zkeyPath env circuitType)])%list).
Proof.
  intros Hget. split.
  - intros Hw.
    assert (Hd : existsSync env (wasmPath env circuitType) &&
                 existsSync env (zkeyPath env circuitType) = false) by now rewrite Hw.
    rewrite (loadCircuit_fails _ _ _ Hget Hd). cbn [fst snd trace].
    rewrite storage_accesses_app, storage_accesses_load.
    unfold load_error, load_accesses. now rewrite Hw.
  - intros Hw Hz.
    assert (Hd : existsSync env (wasmPath env circuitType) &&
                 existsSync env (zkeyPath env circuitType) = false) by now rewrite Hw, Hz.
    rewrite (loadCircuit_fails _ _ _ Hget Hd). cbn [fst snd trace].
    rewrite storage_accesses_app, storage_accesses_load.
    unfold load_error, load_accesses. now rewrite Hw.
Qed.

(** A disk that holds the proving key only. *)
Lemma X12_witness_generator_checked_first_witness :
  fst (loadCircuit (Scenario.service Scenario.no_wasm_disk) "spending" init) =
    Throw (mkError "Error" "WASM file not found: /circuits/spending.wasm") /\
  storage_accesses
    (trace (snd (loadCircuit (Scenario.service Scenario.no_wasm_disk) "spending" init))) =
    [ExistsSync "/circuits/spending.wasm"].
Proof.
  exact (proj1 (X12_witness_generator_checked_first
                  (Scenario.service Scenario.no_wasm_disk) "spending" init eq_refl)
               eq_refl).
Defined.

(** The state in which a handler calls [loadCircuit]: one console line and
    one clock reading after the request arrived. *)
Lemma post_verify_run (env : Env) (req : Body) (s : State) :
  truthy (proof req) = true -> truthy (publicSignals req) = true ->
  post_verify env req s =
  try_catch
    (circuit <- loadCircuit env (circuitType_or_default req) ;;
     vKey <- resolve_vKey env circuit ;;
     isValid <- snarkjs_verify env vKey (publicSignals req) (proof req) ;;
     finished <- Date_now env ;;
     console_log ("Proof verified in " ++
                  decimal (finished - clock env (ticks s)) ++ "ms: " ++
                  (if isValid : bool then "true" else "false")) ;;
     timestamp <- Date_now env ;;
     res_json 200 (Obj [("valid", Bool isValid);
                        ("metadata", metadata (circuitType_or_default req)
                                       (finished - clock env (ticks s)) timestamp)]))
    (fun error =>
       emit (ConsoleErrorExn "Proof verification failed:" error) ;;
       res_json 500 (error_body env error))
    {| circuits := circuits s;
       ticks := S (ticks s);
       trace := trace s ++
                [ConsoleLog ("Verifying proof for circuit: " ++ circuitType_or_default req)] |}.
Proof.
  intros Hp Hs. unfold post_verify. rewrite Hp, Hs. reflexivity.
Qed.

(** X13: POST /verify needs the witness generator although verification
    does not use it. For a circuit type that is not cached and whose .wasm
    file is missing, the request is answered with status 500 and
    "WASM file not found", even if the proving key and the verification key
    are on disk: no key is read or exported, [groth16.verify] is not called
    and the cache is left as it was. *)
Theorem X13_verify_needs_witness_generator (env : Env) (req : Body) (s : State) :
  truthy (proof req) = true -> truthy (publicSignals req) = true ->
  Map_get (circuitType_or_default req) (circuits s) = None ->
  existsSync env (wasmPath env (circuitType_or_default req)) = false ->
  exists resp s',
    post_verify env req s = (Ok resp, s') /\
    status resp = 500 /\
    json_at [Field "error"] (body resp) =
      Some (JString ("WASM file not found: " ++ wasmPath env (circuitType_or_default req))) /\
    storage_accesses (trace s') =
      (storage_accesses (trace s) ++
       [ExistsSync (wasmPath env (circuitType_or_default req))])%list /\
    key_exports (trace s') = key_exports (trace s) /\
    verify_calls (trace s') = verify_calls (trace s) /\
    circuits s' = circuits s.
Proof.
  intros Hp Hs Hget Hw. rewrite (post_verify_run env req s Hp Hs).
  set (s1 := {| circuits := circuits s; ticks := S (ticks s); trace := _ |}).
  assert (Hd : existsSync env (wasmPath env (circuitType_or_default req)) &&
               existsSync env (zkeyPath env (circuitType_or_default req)) = false)
    by now rewrite Hw.
  assert (Hget1 : Map_get (circuitType_or_default req) (circuits s1) = None) by exact Hget.
  unfold try_catch, bindM at 1. rewrite (loadCircuit_fails _ _ _ Hget1 Hd).
  unfold bindM at 1, emit. cbn [circuits ticks trace].
  match goal with |- context [res_json 500 _ ?s2] =>
    destruct (res_json_error_body env (load_error env (circuitType_or_default req)) s2)
      as (members & -> & _) end.
  eexists. eexists. split; [reflexivity|].
  cbn [status body trace circuits]. unfold s1. cbn [trace].
  unfold load_error, load_accesses, key_exports, verify_calls. rewrite Hw.
  rewrite <- !app_assoc. unfold storage_accesses. rewrite !filter_app.
  cbn [filter is_storage_access app List.length].
  rewrite !app_nil_r. repeat split; reflexivity.
Qed.

(** The proving key and the verification key are there, the witness
    generator is not. *)
Lemma X13_verify_needs_witness_generator_witness :
  exists resp s',
    post_verify (Scenario.service Scenario.no_wasm_disk) Scenario.verify_request init =
      (Ok resp, s') /\
    status resp = 500 /\
    json_at [Field "error"] (body resp) =
      Some (JString "WASM file not found: /circuits/spending.wasm").
Proof.
  destruct (X13_verify_needs_witness_generator
              (Scenario.service Scenario.no_wasm_disk) Scenario.verify_request init
              eq_refl eq_refl eq_refl eq_refl)
    as (resp & s' & Hrun & Hstatus & Herror & _).
  exists resp, s'. split; [exact Hrun|]. split; [exact Hstatus|exact Herror].
Defined.

(** *** The verification key *)

Lemma res_json_verified (isValid : bool) (circuitType : string) (d t : Z) (s : State) :
  res_json 200 (Obj [("valid", Bool isValid); ("metadata", metadata circuitType d t)]) s =
  (Ok {| status := 200;
         body := JObject [("valid", JBool isValid);
                          ("metadata",
                           JObject [("circuitType", JString circuitType);
                                    ("duration", json_of_number (number_of_Z d));
                                    ("timestamp", json_of_number (number_of_Z t))])] |}, s).
Proof.
  unfold res_json, bindM, lift, ret. rewrite JSON_stringify_Obj.
  cbn [stringify_members]. rewrite JSON_stringify_metadata. reflexivity.
Qed.

Lemma catch_run (env : Env) (label : string) (e : exn) (s : State) :
  exists members,
    bindM (emit (ConsoleErrorExn label e)) (fun _ => res_json 500 (error_body env e)) s =
    (Ok {| status := 500; body := JObject (("error", JString (message e)) :: members) |},
     {| circuits := circuits s; ticks := ticks s;
        trace := trace s ++ [ConsoleErrorExn label e] |}).
Proof.
  unfold bindM at 1, emit.
  match goal with |- context [res_json 500 _ ?s1] =>
    destruct (res_json_error_body env e s1) as (members & -> & _) end.
  now exists members.
Qed.

Ltac count_events :=
  cbn [fst snd trace circuits ticks];
  unfold storage_accesses, key_exports, verify_calls;
  rewrite <- ?app_assoc; rewrite ?filter_app, ?length_app;
  cbn [filter is_storage_access app List.length];
  rewrite ?app_nil_r, ?Nat.add_0_r.

(** X14: the verification key is not cached. Every POST /verify for a
    circuit that is already in the cache looks for the precomputed key file
    again, reads it again when it exists and exports the key from the proving
    key again when it does not; it makes no other storage access and leaves
    the cache as it was. *)
Theorem X14_verification_key_resolved_per_request
  (env : Env) (req : Body) (s : State) (c : Circuit) :
  truthy (proof req) = true -> truthy (publicSignals req) = true ->
  Map_get (circuitType_or_default req) (circuits s) = Some c ->
  storage_accesses (trace (snd (post_verify env req s))) =
    (storage_accesses (trace s) ++
     ExistsSync (vKeyPath c)
     :: (if existsSync env (vKeyPath c) then [ReadFileSync (vKeyPath c)] else []))%list /\
  key_exports (trace (snd (post_verify env req s))) =
    key_exports (trace s) + (if existsSync env (vKeyPath c) then 0 else 1) /\
  circuits (snd (post_verify env req s)) = circuits s.
Proof.
  intros Hp Hs Hget.
  assert (H : exists r s',
    post_verify env req s = (r, s') /\
    storage_accesses (trace s') =
      (storage_accesses (trace s) ++
       ExistsSync (vKeyPath c)
       :: (if existsSync env (vKeyPath c) then [ReadFileSync (vKeyPath c)] else []))%list /\
    key_exports (trace s') =
      key_exports (trace s) + (if existsSync env (vKeyPath c) then 0 else 1) /\
    circuits s' = circuits s).
  { rewrite (post_verify_run env req s Hp Hs).
    set (s1 := {| circuits := circuits s; ticks := S (ticks s); trace := _ |}).
    assert (Hget1 : Map_get (circuitType_or_default req) (circuits s1) = Some c)
      by exact Hget.
    match goal with |- context [try_catch _ ?h] => set (handler := h) end.
    unfold try_catch, bindM at 1. rewrite (loadCircuit_cached env _ s1 c Hget1).
    unfold resolve_vKey, fs_existsSync, fs_readFileSync, snarkjs_exportVerificationKey,
      snarkjs_verify, console_log, Date_now, bindM, emit, ret, lift.
    cbn [circuits ticks trace].
    destruct (existsSync env (vKeyPath c));
      [destruct (readFileSync env (vKeyPath c)) as [text|e];
         [destruct (JSON_parse env text) as [vKey|e]|]
      |destruct (exportVerificationKey env (zkey c)) as [vKey|e]];
      try destruct (groth16_verify env vKey (publicSignals req) (proof req))
        as [isValid|e];
      cbn [circuits ticks trace];
      try rewrite res_json_verified;
      try (unfold handler;
           match goal with |- context [bindM (emit (ConsoleErrorExn ?l ?x)) _ ?st] =>
             destruct (catch_run env l x st) as (members & ->) end);
      eexists; eexists; (split; [reflexivity|]);
      unfold s1; count_events; repeat split; reflexivity. }
  destruct H as (r & s' & -> & H1 & H2 & H3). auto.
Qed.

(** Two requests in a row, without a precomputed key file: the key is
    exported for each. *)
Lemma X14_verification_key_resolved_per_request_witness :
  key_exports
    (trace (snd (post_verify (Scenario.service Scenario.full_disk) Scenario.verify_request
                   (snd (post_verify (Scenario.service Scenario.full_disk)
                           Scenario.verify_request init))))) =
  key_exports
    (trace (snd (post_verify (Scenario.service Scenario.full_disk)
                   Scenario.verify_request init))) + 1.
Proof.
  exact (proj1 (proj2 (X14_verification_key_resolved_per_request
           (Scenario.service Scenario.full_disk) Scenario.verify_request
           (snd (post_verify (Scenario.service Scenario.full_disk)
                   Scenario.verify_request init))
           (artifact (Scenario.service Scenario.full_disk) "spending")
           eq_refl eq_refl eq_refl))).
Defined.

(** X15: the verification key is looked for next to the proving key. The
    path of the key file is the path of the proving key with the first
    occurrence of "_final.zkey" replaced by "_verification_key.json" (for a
    proving key [base_final.zkey] without an earlier occurrence, the file
    [base_verification_key.json]); a path without an occurrence is left
    unchanged. *)
Theorem X15_verification_key_path (c : Circuit) :
  (forall pre post,
     zkey c = pre ++ "_final.zkey" ++ post ->
     index 0 "_final.zkey" (zkey c) = Some (String.length pre) ->
     vKeyPath c = pre ++ "_verification_key.json" ++ post) /\
  (index 0 "_final.zkey" (zkey c) = None -> vKeyPath c = zkey c).
Proof.
  unfold vKeyPath. split.
  - intros pre post E H. rewrite E in *. now apply String_replace_first.
  - apply String_replace_none.
Qed.

(** The entry that a load from the scenario disk inserts. *)
Lemma X15_verification_key_path_witness :
  vKeyPath (artifact (Scenario.service Scenario.full_disk) "spending") =
  "/circuits/spending" ++ "_verification_key.json" ++ "".
Proof.
  exact (proj1 (X15_verification_key_path
                  (artifact (Scenario.service Scenario.full_disk) "spending"))
               "/circuits/spending" "" eq_refl eq_refl).
Defined.

(** *** POST /prove *)

Lemma post_prove_run (env : Env) (req : Body) (s : State) :
  truthy (input req) = true ->
  post_prove env req s =
  try_catch
    (circuit <- loadCircuit env (circuitType_or_default req) ;;
     ' (proof, publicSignals) <-
         snarkjs_fullProve env (input req) (wasm circuit) (zkey circuit) ;;
     finished <- Date_now env ;;
     console_log ("Proof generated in " ++
                  decimal (finished - clock env (ticks s)) ++ "ms") ;;
     timestamp <- Date_now env ;;
     res_json 200 (Obj [("proof", proof);
                        ("publicSignals", publicSignals);
                        ("metadata", metadata (circuitType_or_default req)
                                       (finished - clock env (ticks s)) timestamp)]))
    (fun error =>
       emit (ConsoleErrorExn "Proof generation failed:" error) ;;
       res_json 500 (error_body env error))
    {| circuits := circuits s;
       ticks := S (ticks s);
       trace := trace s ++
                [ConsoleLog ("Generating proof for circuit: " ++ circuitType_or_default req)] |}.
Proof.
  intros Ht. unfold post_prove. rewrite Ht. reflexivity.
Qed.

(** X16: a proof that cannot be generated does not undo the load. When the
    circuit is loaded for a POST /prove request and the prover then fails,
    the request is answered with status 500 and the message of the prover,
    and the circuit stays in the cache with its complete entry. *)
Theorem X16_failed_proof_keeps_circuit (env : Env) (req : Body) (s : State) (e : exn) :
  truthy (input req) = true ->
  Map_get (circuitType_or_default req) (circuits s) = None ->
  existsSync env (wasmPath env (circuitType_or_default req)) = true ->
  existsSync env (zkeyPath env (circuitType_or_default req)) = true ->
  fullProve env (input req) (wasmPath env (circuitType_or_default req))
            (zkeyPath env (circuitType_or_default req)) = Throw e ->
  exists resp s',
    post_prove env req s = (Ok resp, s') /\
    status resp = 500 /\
    json_at [Field "error"] (body resp) = Some (JString (message e)) /\
    Map_get (circuitType_or_default req) (circuits s') =
      Some (artifact env (circuitType_or_default req)).
Proof.
  intros Ht Hget Hw Hz Hprove. rewrite (post_prove_run env req s Ht).
  set (s1 := {| circuits := circuits s; ticks := S (ticks s); trace := _ |}).
  assert (Hget1 : Map_get (circuitType_or_default req) (circuits s1) = None) by exact Hget.
  match goal with |- context [try_catch _ ?h] => set (handler := h) end.
  unfold try_catch, bindM at 1. rewrite (loadCircuit_loads _ _ _ Hget1 Hw Hz).
  unfold bindM at 1, snarkjs_fullProve, bindM at 1, emit, lift.
  cbn [wasm zkey artifact circuits ticks trace]. rewrite Hprove.
  unfold handler.
  match goal with |- context [bindM (emit (ConsoleErrorExn ?l ?x)) _ ?st] =>
    destruct (catch_run env l x st) as (members & ->) end.
  eexists. eexists. split; [reflexivity|].
  cbn [status body circuits]. split; [reflexivity|]. split; [reflexivity|].
  now rewrite Map_get_set, String.eqb_refl.
Qed.

(** A witness that does not satisfy the circuit. *)
Lemma X16_failed_proof_keeps_circuit_witness :
  exists resp s',
    post_prove (Scenario.failing_service Scenario.full_disk) Scenario.prove_request init =
      (Ok resp, s') /\
    status resp = 500 /\
    Map_get "spending" (circuits s') =
      Some (artifact (Scenario.failing_service Scenario.full_disk) "spending").
Proof.
  destruct (X16_failed_proof_keeps_circuit
              (Scenario.failing_service Scenario.full_disk) Scenario.prove_request init
              (mkError "Error" "Assert Failed. Error in template Spending")
              eq_refl eq_refl eq_refl eq_refl eq_refl)
    as (resp & s' & Hrun & Hstatus & _ & Hentry).
  exists resp, s'. split; [exact Hrun|]. split; [exact Hstatus|exact Hentry].
Defined.

(** *** The order of the cache *)

Lemma Map_keys_set_absent (k : string) (c : Circuit) (m : list (string * Circuit)) :
  Map_get k m = None -> Map_keys (Map_set k c m) = (Map_keys m ++ [k])%list.
Proof.
  unfold Map_get, Map_keys. induction m as [|[k0 c0] m IH]; simpl; [reflexivity|].
  destruct (k0 =? k); [discriminate|]. intros H. simpl. now rewrite IH.
Qed.

(** A call of [loadCircuit] appends at most its own key, and only if the
    key is new. *)
Lemma loadCircuit_keys (env : Env) (circuitType : string) (s : State) :
  Map_keys (circuits (snd (loadCircuit env circuitType s))) = Map_keys (circuits s) \/
  (~ In circuitType (Map_keys (circuits s)) /\
   Map_keys (circuits (snd (loadCircuit env circuitType s))) =
   (Map_keys (circuits s) ++ [circuitType])%list).
Proof.
  destruct (Map_get circuitType (circuits s)) as [c|] eqn:Hget.
  - left. now rewrite (loadCircuit_cached env _ _ _ Hget).
  - destruct (existsSync env (wasmPath env circuitType) &&
              existsSync env (zkeyPath env circuitType)) eqn:Hd.
    + right. apply andb_true_iff in Hd as [Hw Hz].
      rewrite (loadCircuit_loads _ _ _ Hget Hw Hz). cbn [snd circuits]. split.
      * rewrite Map_keys_get. intros [c H]. congruence.
      * now apply Map_keys_set_absent.
    + left. now rewrite (loadCircuit_fails _ _ _ Hget Hd).
Qed.

Lemma follows_keys (s s' : State) :
  follows s s' ->
  (exists added, Map_keys (circuits s') = (Map_keys (circuits s) ++ added)%list) /\
  (NoDup (Map_keys (circuits s)) -> NoDup (Map_keys (circuits s'))).
Proof.
  induction 1 as [|env r s' _ [[added IHa] IHn]].
  - split; [exists []; now rewrite app_nil_r|auto].
  - assert (K : keeps (fun st =>
                (exists l, Map_keys (circuits st) = (Map_keys (circuits s) ++ l)%list) /\
                (NoDup (Map_keys (circuits s)) -> NoDup (Map_keys (circuits st))))
              (handle env r)).
    { apply handle_keeps.
      - intros s1 s2 E. now rewrite E.
      - intros circuitType s1 [[l Hl] Hn].
        destruct (loadCircuit_keys env circuitType s1) as [-> | [Hnew ->]].
        + split; [now exists l|exact Hn].
        + split.
          * exists (l ++ [circuitType])%list. now rewrite Hl, app_assoc.
          * intros Hs. specialize (Hn Hs).
            apply NoDup_app; [exact Hn|repeat constructor; intros []|].
            intros x Hx [<-|[]]. contradiction. }
    apply K. split; [now exists added|exact IHn].
Qed.

(** X17: GET /health lists the loaded circuit types in the order in which
    they were first loaded, each of them once, and never forgets one: at any
    later time the list is the earlier list followed by the circuit types
    loaded since. *)
Theorem X17_health_lists_in_load_order (s s' : State) :
  follows init s -> follows s s' ->
  exists keys added,
    fst (get_health s) =
      Ok {| status := 200;
            body := JObject [("status", JString "ok");
                             ("service", JString "shadowpay-prover");
                             ("version", JString "1.0.0");
                             ("loadedCircuits", JArray (map JString keys))] |} /\
    fst (get_health s') =
      Ok {| status := 200;
            body := JObject [("status", JString "ok");
                             ("service", JString "shadowpay-prover");
                             ("version", JString "1.0.0");
                             ("loadedCircuits", JArray (map JString (keys ++ added)))] |} /\
    NoDup (keys ++ added).
Proof.
  intros Hs Hs'.
  destruct (follows_keys _ _ Hs) as [_ Hn].
  destruct (follows_keys _ _ Hs') as [[added Ha] Hn'].
  exists (Map_keys (circuits s)), added. rewrite !get_health_response, Ha.
  split; [reflexivity|]. split; [reflexivity|].
  rewrite <- Ha. apply Hn', Hn. constructor.
Qed.

(** Before and after the first proof request. *)
Lemma X17_health_lists_in_load_order_witness :
  exists keys added,
    fst (get_health init) =
      Ok {| status := 200;
            body := JObject [("status", JString "ok");
                             ("service", JString "shadowpay-prover");
                             ("version", JString "1.0.0");
                             ("loadedCircuits", JArray (map JString keys))] |} /\
    fst (get_health (snd (handle (Scenario.service Scenario.full_disk)
                            (PostProve Scenario.prove_request) init))) =
      Ok {| status := 200;
            body := JObject [("status", JString "ok");
                             ("service", JString "shadowpay-prover");
                             ("version", JString "1.0.0");
                             ("loadedCircuits", JArray (map JString (keys ++ added)))] |} /\
    NoDup (keys ++ added).
Proof.
  exact (X17_health_lists_in_load_order init
           (snd (handle (Scenario.service Scenario.full_disk)
                   (PostProve Scenario.prove_request) init))
           (follows_refl init)
           (follows_step init (Scenario.service Scenario.full_disk)
              (PostProve Scenario.prove_request) init (follows_refl init))).
Defined.

(** *** GET /circuits *)

(** X18: a missing circuit directory is not an error for GET /circuits: the
    answer is 200 with an empty list (and without the members [loaded] and
    [circuitDir]), and the directory is not read. A directory that exists
    and cannot be read is answered with status 500 and the message alone.
    In every case the cache is left as it was. *)
Theorem X18_circuits_route_edges (env : Env) (s : State) :
  (existsSync env (circuitDir env) = false ->
   get_circuits_route env s =
   (Ok {| status := 200; body := JObject [("circuits", JArray [])] |},
    {| circuits := circuits s; ticks := ticks s;
       trace := trace s ++ [ExistsSync (circuitDir env)] |})) /\
  (existsSync env (circuitDir env) = true ->
   forall e, readdirSync env (circuitDir env) = Throw e ->
   get_circuits_route env s =
   (Ok {| status := 500; body := JObject [("error", JString (message e))] |},
    {| circuits := circuits s; ticks := ticks s;
       trace := trace s ++ [ExistsSync (circuitDir env); ReaddirSync (circuitDir env)] |})) /\
  circuits (snd (get_circuits_route env s)) = circuits s.
Proof.
  unfold get_circuits_route, try_catch, fs_existsSync, fs_readdirSync, get_circuits,
    bindM, emit, ret, lift.
  cbn [circuits ticks trace].
  destruct (existsSync env (circuitDir env)); cbn [negb].
  - split; [discriminate|]. split.
    + intros _ e ->. cbn [circuits ticks trace]. rewrite <- app_assoc. reflexivity.
    + destruct (readdirSync env (circuitDir env)) as [files|e]; [|reflexivity].
      cbn [circuits ticks trace]. unfold res_json, bindM, lift, ret.
      rewrite JSON_stringify_Obj. cbn [stringify_members].
      rewrite !JSON_stringify_Arr, !stringify_elements_Str. reflexivity.
  - split; [reflexivity|]. split; [discriminate|reflexivity].
Qed.

(** A disk without the circuit directory. *)
Lemma X18_circuits_route_edges_witness :
  get_circuits_route (Scenario.service Scenario.empty_disk) init =
  (Ok {| status := 200; body := JObject [("circuits", JArray [])] |},
   {| circuits := []; ticks := 0; trace := [ExistsSync "/circuits"] |}).
Proof.
  exact (proj1 (X18_circuits_route_edges (Scenario.service Scenario.empty_disk) init)
               eq_refl).
Defined.

(** X19: GET /circuits lists the circuits that [loadCircuit] can look for.
    When the directory can be read, the answer is 200; for every file
    [name.wasm] of the directory ([name] holding no ".wasm" itself) the list
    [circuits] holds [name], the circuit type under which [loadCircuit]
    looks for that file; every listed name comes from a file that ends in
    ".wasm"; and [loaded] is the list of cached circuit types that
    GET /health gives. The proving key is not looked at: a listed circuit
    may still fail to load. *)
Theorem X19_circuits_route_lists_wasm_files (env : Env) (s : State) (files : list string) :
  existsSync env (circuitDir env) = true ->
  readdirSync env (circuitDir env) = Ok files ->
  exists names,
    fst (get_circuits_route env s) =
      Ok {| status := 200;
            body := JObject [("circuits", JArray (map JString names));
                             ("loaded", JArray (map JString (Map_keys (circuits s))));
                             ("circuitDir", JString (circuitDir env))] |} /\
    (forall name,
       In (name ++ ".wasm") files ->
       index 0 ".wasm" (name ++ ".wasm") = Some (String.length name) ->
       In name names) /\
    (forall name,
       In name names ->
       exists f, In f files /\ String_endsWith f ".wasm" = true /\
                 name = String_replace ".wasm" "" f).
Proof.
  intros Hdir Hread.
  exists (map (String_replace ".wasm" "")
              (filter (fun f => String_endsWith f ".wasm") files)).
  split; [|split].
  - unfold get_circuits_route, try_catch, fs_existsSync, fs_readdirSync, get_circuits,
      bindM, emit, ret, lift.
    cbn [circuits ticks trace]. rewrite Hdir, Hread. cbn [negb circuits].
    unfold res_json, bindM, lift, ret.
    rewrite JSON_stringify_Obj. cbn [stringify_members].
    rewrite !JSON_stringify_Arr, !stringify_elements_Str. reflexivity.
  - intros name Hin Hfirst. apply in_map_iff. exists (name ++ ".wasm"). split.
    + pose proof (String_replace_first ".wasm" "" "" name) as H.
      change (".wasm" ++ "") with ".wasm" in H. rewrite (H Hfirst).
      clear. induction name as [|c name IH]; [reflexivity|].
      change (String c name ++ "" ++ "") with (String c (name ++ "" ++ "")).
      now rewrite IH.
    + apply filter_In. split; [exact Hin|apply String_endsWith_append].
  - intros name Hin. apply in_map_iff in Hin as (f & <- & Hf).
    apply filter_In in Hf as [Hf He]. now exists f.
Qed.

(** A directory that holds a complete circuit and a text file. *)
Lemma X19_circuits_route_lists_wasm_files_witness :
  exists names,
    fst (get_circuits_route (Scenario.service Scenario.listed_disk) init) =
      Ok {| status := 200;
            body := JObject [("circuits", JArray (map JString names));
                             ("loaded", JArray (map JString []));
                             ("circuitDir", JString "/circuits")] |} /\
    In "spending" names.
Proof.
  destruct (X19_circuits_route_lists_wasm_files
              (Scenario.service Scenario.listed_disk) init
              ["/circuits"; "spending.wasm"; "spending_final.zkey"; "README.md"]
              eq_refl eq_refl) as (names & Hrun & Hlisted & _).
  exists names. split; [exact Hrun|].
  apply (Hlisted "spending"); [right; left; reflexivity|reflexivity].
Defined.

End ServiceExtras.
